(** * pubchem_server.py: the resilient PubChem lookup, embedded and verified

    The Python module is embedded as a small program monad over an event
    trace.  The trace records, in chronological order, every log line, every
    outbound request (with the [proxies] argument it was issued with) and
    every sleep.  PubChemPy and [requests] are external collaborators: they
    are an oracle that answers each request from the part of the trace a
    remote service can observe (requests and elapsed sleeps, never the local
    log file).  Python's [str.lower()], which follows the Unicode case tables,
    is a parameter of the startup. *)

From Stdlib Require Import ZArith QArith String Ascii List Lia.
From stdpp Require Import base option list strings gmap pretty.

Open Scope Z_scope.

Set Warnings "-register-all".

(** ** Python values *)

(** The values a PubChemPy property dictionary can hold.  A finite binary64
    number is carried as the rational it denotes; it is never computed on. *)
Inductive value :=
| VNone
| VInt (z : Z)
| VFloat (q : Q)
| VStr (s : string)
| VList (l : list value).

(** A Python [dict] with string keys. *)
Abbreviation dict := (gmap string value).

(** The [proxies] mapping handed to every request: scheme to proxy URL. *)
Abbreviation proxy_dict := (gmap string string).

(** Exceptions below [Exception].  [str_of] is [str(e)].  Subclasses of
    [pcp.PubChemHTTPError] are caught by the same clause and are not told
    apart.  [BaseException]s that are not [Exception]s (task cancellation,
    keyboard interrupt) are outside the model. *)
Inductive exn :=
| PubChemHTTPError (msg : string)
| RequestException (msg : string)
| OtherException (msg : string).

Definition str_of (e : exn) : string :=
  match e with
  | PubChemHTTPError msg | RequestException msg | OtherException msg => msg
  end.

(** A [pcp.Compound] as far as the module looks at it: its [cid] attribute
    ([None] when [hasattr] fails, [Some None] when the attribute is Python's
    [None]) and what [to_dict()] does. *)
Record Compound := {
  cid_attr : option (option Z);
  to_dict : exn + dict
}.

(** One entry of the substance-domain answer of [pcp.get_cids]: a dictionary
    that always has ['SID'] and may have ['CID']. *)
Record substance_info := {
  SID : Z;
  CID : option (list Z)
}.

(** ** String helpers *)

(** Python's [pat in s] on strings. *)
Definition py_in (pat s : string) : bool :=
  match String.index 0 pat s with Some _ => true | None => false end.

Definition ascii_lower (c : ascii) : ascii :=
  let n := N_of_ascii c in
  if ((65 <=? n) && (n <=? 90))%N then ascii_of_N (n + 32) else c.

Definition ascii_upper (c : ascii) : ascii :=
  let n := N_of_ascii c in
  if ((97 <=? n) && (n <=? 122))%N then ascii_of_N (n - 32) else c.

(** What [str.lower()] does to ASCII text: [A]-[Z] become [a]-[z], every
    other character stays.  Python's [str.lower()] itself follows the Unicode
    case tables and is a parameter of the startup ([str_lower] below); this
    function stands in for it in the examples, whose settings are ASCII. *)
Fixpoint lower_ascii (s : string) : string :=
  match s with
  | EmptyString => EmptyString
  | String c r => String (ascii_lower c) (lower_ascii r)
  end.

(** [str.upper()] on ASCII text.  The module only ever applies it to the
    proxy type after validation, that is, to one of the four accepted types,
    which are ASCII. *)
Fixpoint upper (s : string) : string :=
  match s with
  | EmptyString => EmptyString
  | String c r => String (ascii_upper c) (upper r)
  end.

(** ** Events and the program monad *)

Inductive level := INFO | WARNING | ERROR | CRITICAL.

Inductive request :=
| GetCompounds (name : string) (px : option proxy_dict)
    (* pcp.get_compounds(name, 'name', record_type='3d', max_records=1, proxies=px) *)
| GetCids (name : string) (px : option proxy_dict)
    (* pcp.get_cids(name, 'name', 'substance', proxies=px) *)
| FromCid (cid : Z) (px : option proxy_dict)
    (* pcp.Compound.from_cid(cid, proxies=px) *)
| TorCheck (px : option proxy_dict).
    (* requests.get("https://check.torproject.org/", proxies=px, timeout=30) *)

Inductive event :=
| EvLog (lvl : level) (msg : string)
| EvLogData (lvl : level) (data : list dict)   (* a logged json.dumps(data, indent=2) *)
| EvCreateConfig                               (* config.ini written from the template *)
| EvRequest (r : request)
| EvSleep (secs : Z)                           (* time.sleep(secs) *)
| EvPause (secs : Q).                          (* await asyncio.sleep(secs) *)

Definition trace := list event.

(** What a remote service can observe of the run so far. *)
Definition on_wire (e : event) : bool :=
  match e with
  | EvRequest _ | EvSleep _ | EvPause _ => true
  | _ => false
  end.

Definition wire (s : trace) : trace := List.filter on_wire s.

(** The external collaborators.  Each answer may depend on everything that
    went over the wire before. *)
Record Upstream := {
  get_compounds : trace → string → option proxy_dict → exn + list Compound;
  get_cids : trace → string → option proxy_dict → exn + list substance_info;
  from_cid : trace → Z → option proxy_dict → exn + option Compound;
  tor_check : trace → option proxy_dict → exn + string
    (* the response text once raise_for_status() has passed *)
}.

(** A Python computation: it runs from a trace, extends it, and either
    returns a value or raises. *)
Definition Py (A : Type) : Type := trace → (exn + A) * trace.

Global Instance Py_ret : MRet Py := λ A a s, (inr a, s).

Global Instance Py_bind : MBind Py := λ A B f m s,
  match m s with
  | (inr a, s') => f a s'
  | (inl e, s') => (inl e, s')
  end.

Definition raise {A} (e : exn) : Py A := λ s, (inl e, s).

Definition emit (e : event) : Py unit := λ s, (inr tt, s ++ [e]).

Definition log (lvl : level) (msg : string) : Py unit := emit (EvLog lvl msg).

(** [try: body / except Exception as e: handler e]. *)
Definition try_except {A} (body : Py A) (handler : exn → Py A) : Py A := λ s,
  match body s with
  | (inr a, s') => (inr a, s')
  | (inl e, s') => handler e s'
  end.

(** A library call: the request goes on the trace, the oracle answers. *)
Definition call {A} (r : request) (answer : trace → exn + A) : Py A := λ s,
  (answer (wire s), s ++ [EvRequest r]).

(** [time.sleep] rejects a negative length. *)
Definition time_sleep (secs : Z) : Py unit :=
  if secs <? 0 then raise (OtherException "sleep length must be non-negative")
  else emit (EvSleep secs).

Definition asyncio_sleep (secs : Q) : Py unit := emit (EvPause secs).

(** ** Startup: config.ini and the transport selection *)

(** The [[proxy]] section of config.ini as [configparser] reads it: an option
    that is missing is [None] and takes the fallback of its getter. *)
Record ConfigIni := {
  ini_use_proxy : option bool;
  ini_proxy_type : option string;
  ini_host : option string;
  ini_port : option Z
}.

(** What [DEFAULT_CONFIG_CONTENT] parses to. *)
Definition DEFAULT_CONFIG : ConfigIni := {|
  ini_use_proxy := Some false;
  ini_proxy_type := Some "socks5h";
  ini_host := Some "127.0.0.1";
  ini_port := Some 9050
|}.

(** The module-level names the lookup reads. *)
Record Globals := {
  USE_PROXY : bool;
  proxies : option proxy_dict;
  CONNECTION_TYPE : string
}.

Definition proxy_url (proxy_type proxy_host : string) (proxy_port : Z) : string :=
  proxy_type +:+ "://" +:+ proxy_host +:+ ":" +:+ pretty proxy_port.

(** Lines 76-79. *)
Definition make_proxies (proxy_type proxy_host : string) (proxy_port : Z) : proxy_dict :=
  <["https" := proxy_url proxy_type proxy_host proxy_port]>
    (<["http" := proxy_url proxy_type proxy_host proxy_port]> ∅).

Section Startup.
(** [str_lower] is Python's built-in [str.lower()]. *)
Context (str_lower : string → string) (up : Upstream).

(** Lines 83-92: the one diagnostic request through the proxy.  Only a
    [requests.exceptions.RequestException] is caught. *)
Definition proxy_check (proxy_type : string) (px : proxy_dict) : Py unit :=
  try_except
    (text ← call (TorCheck (Some px)) (λ w, tor_check up w (Some px));
     if py_in "Congratulations. This browser is configured to use Tor." text
     then log INFO ("[" +:+ upper proxy_type +:+ " PROXY CHECK] SUCCESS! Connection through the Tor network verified successfully.")
     else log WARNING ("[" +:+ upper proxy_type +:+ " PROXY CHECK] WARNING: Connection was successful, but the response does not confirm Tor usage."))
    (λ e,
       match e with
       | RequestException msg =>
           log CRITICAL ("[" +:+ upper proxy_type +:+ " PROXY CHECK] !! CRITICAL FAILURE !! Could not connect through the proxy. Error: " +:+ msg);;
           log CRITICAL ("[" +:+ upper proxy_type +:+ " PROXY CHECK] Please ensure the proxy is running and that the required dependency (e.g., PySocks) is installed.")
       | _ => raise e
       end).

(** Lines 55-94: [file] is the parsed config.ini, [None] when there is no
    file yet.  The result is the module state the tool then runs with. *)
Definition startup (file : option ConfigIni) : Py Globals :=
  cfg ← match file with
        | None =>
            log WARNING "config.ini not found. Creating a new one with default safe values.";;
            emit EvCreateConfig;;
            mret DEFAULT_CONFIG
        | Some cfg => mret cfg
        end;
  let use_proxy := default false (ini_use_proxy cfg) in
  if use_proxy then
    let proxy_type := str_lower (default "socks5h" (ini_proxy_type cfg)) in
    let proxy_host := default "127.0.0.1" (ini_host cfg) in
    let proxy_port := default 9050 (ini_port cfg) in
    let invalid := negb (bool_decide (proxy_type ∈ ["socks5h"; "socks5"; "http"; "https"])) in
    (if invalid
     then log ERROR ("Invalid proxy_type '" +:+ proxy_type +:+ "' in config.ini. Defaulting to 'socks5h'.")
     else mret tt);;
    let proxy_type := if invalid then "socks5h" else proxy_type in
    let px := make_proxies proxy_type proxy_host proxy_port in
    let connection_type := "Proxy " +:+ upper proxy_type +:+ " (" +:+ proxy_url proxy_type proxy_host proxy_port +:+ ")" in
    log INFO ("[" +:+ upper proxy_type +:+ " PROXY ENABLED] Will attempt to use proxy at " +:+ proxy_host +:+ ":" +:+ pretty proxy_port);;
    proxy_check proxy_type px;;
    mret {| USE_PROXY := true; proxies := Some px; CONNECTION_TYPE := connection_type |}
  else
    log INFO "[PROXY DISABLED] Using a direct connection. Your real IP will be visible to PubChem.";;
    mret {| USE_PROXY := false; proxies := None; CONNECTION_TYPE := "Direct" |}.

End Startup.

(** ** The lookup: compound_to_dict and search_by_name_with_retries *)

Definition keys_to_ensure : list string :=
  ["cid"; "iupac_name"; "molecular_formula"; "molecular_weight";
   "monoisotopic_mass"; "synonyms"; "charge"].

(** Python truthiness of the local [cid] ([None] or an integer). *)
Definition truthy_cid (cid : option Z) : bool :=
  match cid with
  | Some z => negb (z =? 0)
  | None => false
  end.

(** The four failure dictionaries of [search_by_name_with_retries] and the
    one of its general [except] clause. *)
Definition failure (message name : string) : dict :=
  <["compound_name" := VStr name]> (<["error" := VStr message]> ∅).

Definition not_found (name : string) : dict :=
  failure ("Compound '" +:+ name +:+ "' not found in PubChem.") name.

Definition fetch_error (name : string) (cid : Z) : dict :=
  failure ("Could not process full record for '" +:+ name +:+ "' (CID: " +:+ pretty cid +:+ ").") name.

Definition http_error (name : string) : dict :=
  failure ("Compound '" +:+ name +:+ "' not found in PubChem (HTTP Error).") name.

Definition general_error (name msg : string) : dict :=
  failure ("General error for '" +:+ name +:+ "': " +:+ msg) name.

Definition transient_failure (name : string) (max_retries : Z) : dict :=
  failure ("Failed to get data for '" +:+ name +:+ "' after " +:+ pretty max_retries +:+ " retries.") name.

(** Lines 101-110.  [None] is Python's [None]; a [Compound] object is always
    truthy. *)
Definition compound_to_dict (compound : option Compound) : Py (option dict) :=
  match compound with
  | None => mret None
  | Some c =>
      match to_dict c with
      | inr props =>
          mret (Some (list_to_map ((λ key, (key, default VNone (props !! key))) <$> keys_to_ensure)))
      | inl e =>
          log ERROR ("Could not convert compound to dictionary: " +:+ str_of e);;
          mret None
      end
  end.

(** How one pass of the [for] loop ends: with [return d] or with [continue]. *)
Inductive flow :=
| Return (d : dict)
| Continue.

(** The retry test of line 141. *)
Definition server_busy (msg : string) : bool :=
  py_in "Server Busy" msg || py_in "503" msg.

Section Lookup.
Context (g : Globals) (up : Upstream).

(** Lines 120-121: the identifier of the first primary hit, when it has one
    that is truthy; otherwise [cid] stays [None]. *)
Definition primary_cid (compounds : list Compound) : option Z :=
  match compounds with
  | c0 :: _ =>
      match cid_attr c0 with
      | Some c0_cid => if truthy_cid c0_cid then c0_cid else None
      | None => None
      end
  | [] => None
  end.

(** Lines 125-128: only the first entry of the substance answer is looked
    at; [cid] keeps its value when that entry has no usable ['CID']. *)
Definition substance_cid (cid : option Z) (cids_from_substance : list substance_info) : option Z :=
  match cids_from_substance with
  | first_result :: _ =>
      match CID first_result with
      | Some (cid0 :: _) => Some cid0
      | _ => cid
      end
  | [] => cid
  end.

(** Lines 117-128: the two-domain resolution of one attempt. *)
Definition resolve (name : string) : Py (option Z) :=
  log INFO "   -> Attempt 1: Searching in 'Compound' domain";;
  compounds ← call (GetCompounds name (proxies g)) (λ w, get_compounds up w name (proxies g));
  let cid := primary_cid compounds in
  if negb (truthy_cid cid) then
    log WARNING "   -> Search in 'Compound' failed. Falling back to 'Substance' domain...";;
    cids_from_substance ← call (GetCids name (proxies g)) (λ w, get_cids up w name (proxies g));
    mret (substance_cid cid cids_from_substance)
  else mret cid.

(** Lines 132-139: the by-identifier fetch of the full record; [cid] is a
    non-zero integer here. *)
Definition fetch_record (name : string) (cid : Z) : Py dict :=
  log INFO ("CID found for '" +:+ name +:+ "': " +:+ pretty cid +:+ ". Fetching full record...");;
  full_compound ← call (FromCid cid (proxies g)) (λ w, from_cid up w cid (proxies g));
  result_dict ← compound_to_dict full_compound;
  match result_dict with
  | Some result_dict => mret (<["search_term" := VStr name]> result_dict)
  | None => mret (fetch_error name cid)
  end.

(** Lines 129-131: [not cid] holds of [None] and of [0]. *)
Definition no_valid_cid (name : string) : Py dict :=
  log WARNING ("No valid CID found for '" +:+ name +:+ "' in any domain.");;
  mret (not_found name).

(** Lines 116-139: the body of the [try].  Every path through it ends in a
    [return] or in an exception of one of the three library calls. *)
Definition try_body (name : string) (attempt max_retries : Z) : Py dict :=
  log INFO ("Searching (" +:+ CONNECTION_TYPE g +:+ "): '" +:+ name +:+ "' (Attempt " +:+ pretty (attempt + 1) +:+ "/" +:+ pretty max_retries +:+ ")...");;
  cid ← resolve name;
  match cid with
  | Some cid => if cid =? 0 then no_valid_cid name else fetch_record name cid
  | None => no_valid_cid name
  end.

(** Lines 140-150: the two [except] clauses. *)
Definition handler (name : string) (retry_delay : Z) (e : exn) : Py flow :=
  match e with
  | PubChemHTTPError msg =>
      if server_busy msg then
        log WARNING ("Server busy for '" +:+ name +:+ "'. Retrying in " +:+ pretty retry_delay +:+ " seconds...");;
        time_sleep retry_delay;;
        mret Continue
      else
        log ERROR ("PubChem HTTP Error for '" +:+ name +:+ "': " +:+ msg);;
        mret (Return (http_error name))
  | _ =>
      log ERROR ("General error while searching for '" +:+ name +:+ "': " +:+ str_of e);;
      mret (Return (general_error name (str_of e)))
  end.

(** One pass of the loop of line 114. *)
Definition iteration (name : string) (attempt max_retries retry_delay : Z) : Py flow :=
  try_except (d ← try_body name attempt max_retries; mret (Return d))
             (handler name retry_delay).

(** [for attempt in range(max_retries)], with [left] passes still to run,
    followed by lines 151-152 when the loop runs out. *)
Fixpoint retry_loop (name : string) (max_retries retry_delay : Z)
    (left : nat) (attempt : Z) : Py dict :=
  match left with
  | O =>
      log ERROR ("Failed to search for '" +:+ name +:+ "' after " +:+ pretty max_retries +:+ " attempts.");;
      mret (transient_failure name max_retries)
  | S left' =>
      f ← iteration name attempt max_retries retry_delay;
      match f with
      | Return d => mret d
      | Continue => retry_loop name max_retries retry_delay left' (attempt + 1)
      end
  end.

Definition search_by_name_with_retries (name : string) (max_retries retry_delay : Z) : Py dict :=
  retry_loop name max_retries retry_delay (Z.to_nat max_retries) 0.

(** ** The batch: search_compounds_by_name *)

Definition PAUSE_BETWEEN_REQUESTS : Q := 2.

(** Lines 154-159; [json.dumps] renders every [value]. *)
Definition log_results_to_file (data : list dict) : Py unit :=
  log INFO "--- DEBUG: DATA BEING SENT TO LLM ---";;
  emit (EvLogData INFO data);;
  log INFO "--- END OF DATA ---".

(** The [for name in names] loop of lines 171-175 over the list
    [all_results]. *)
Fixpoint batch_loop (names : list string) (all_results : list dict) : Py (list dict) :=
  match names with
  | [] => mret all_results
  | name :: names' =>
      result ← search_by_name_with_retries name 3 5;
      let all_results := all_results ++ [result] in
      log INFO "Pausing for 2.0s.";;
      asyncio_sleep PAUSE_BETWEEN_REQUESTS;;
      batch_loop names' all_results
  end.

Definition search_compounds_by_name (names : list string) : Py (list dict) :=
  log INFO ("Initiating SMART and SEQUENTIAL search for " +:+ pretty (Z.of_nat (length names)) +:+ " compounds...");;
  all_results ← batch_loop names [];
  log_results_to_file all_results;;
  mret all_results.

End Lookup.

(** ** Vocabulary of the properties *)

(** [emits P m]: [m] only appends to the trace, and every event it appends
    satisfies [P]. *)
Definition emits {A} (P : event → Prop) (m : Py A) : Prop :=
  ∀ s, ∃ t, (m s).2 = s ++ t ∧ Forall P t.

(** [returns Q m]: the result of [m], value or exception, satisfies [Q]
    from every trace. *)
Definition returns {A} (Q : exn + A → Prop) (m : Py A) : Prop :=
  ∀ s, Q (m s).1.

(** [same_wire m1 m2]: run from traces that look the same to the remote
    services, [m1] and [m2] end alike and leave traces that still look the
    same.  Two runs that differ in their log lines only are related. *)
Definition same_wire {A} (m1 m2 : Py A) : Prop :=
  ∀ s1 s2, wire s1 = wire s2 →
    (m1 s1).1 = (m2 s2).1 ∧ wire (m1 s1).2 = wire (m2 s2).2.

Definition request_proxies (r : request) : option proxy_dict :=
  match r with
  | GetCompounds _ px | GetCids _ px | FromCid _ px | TorCheck px => px
  end.

(** The event, when it is an outbound request, was issued with [px]. *)
Definition uses_proxy (px : option proxy_dict) (e : event) : Prop :=
  match e with
  | EvRequest r => request_proxies r = px
  | _ => True
  end.

(** What one lookup may append to the trace: log lines, PubChem requests
    issued with [px], and the sleeps of the retry path. *)
Definition lookup_event (px : option proxy_dict) (e : event) : Prop :=
  match e with
  | EvLog _ _ | EvSleep _ => True
  | EvRequest (TorCheck _) => False
  | EvRequest r => request_proxies r = px
  | _ => False
  end.

(** What a batch may append: the events of its lookups, the pacing pause,
    and the logged payload. *)
Definition batch_event (px : option proxy_dict) (e : event) : Prop :=
  match e with
  | EvPause secs => secs = PAUSE_BETWEEN_REQUESTS
  | EvLogData _ _ => True
  | _ => lookup_event px e
  end.

(** The pacing delay requested over a stretch of the trace: the sum of the
    [asyncio.sleep] lengths. *)
Definition pacing_delay (e : event) : Q :=
  match e with
  | EvPause secs => secs
  | _ => 0%Q
  end.

Fixpoint total_pacing (t : trace) : Q :=
  match t with
  | [] => 0%Q
  | e :: t' => (pacing_delay e + total_pacing t')%Q
  end.

(** The requests of a stretch of the trace, in order. *)
Fixpoint requests_of (t : trace) : list request :=
  match t with
  | [] => []
  | EvRequest r :: t' => r :: requests_of t'
  | _ :: t' => requests_of t'
  end.

(** The attempts of a stretch of the trace: every attempt opens with exactly
    one primary-domain search. *)
Fixpoint attempts_in (t : trace) : nat :=
  match t with
  | [] => 0
  | EvRequest (GetCompounds _ _) :: t' => S (attempts_in t')
  | _ :: t' => attempts_in t'
  end.

(** The retry test on an exception: a [PubChemHTTPError] whose text says
    busy. *)
Definition transient (e : exn) : bool :=
  match e with
  | PubChemHTTPError msg => server_busy msg
  | _ => false
  end.

(** The trace once the handler has dealt with a transient error raised at
    [s]: the warning, then the fixed delay. *)
Definition after_busy (name : string) (retry_delay : Z) (s : trace) : trace :=
  s ++ [EvLog WARNING ("Server busy for '" +:+ name +:+ "'. Retrying in " +:+ pretty retry_delay +:+ " seconds...");
        EvSleep retry_delay].

(** The two shapes of an outcome. *)
Definition success_shape (name : string) (d : dict) : Prop :=
  (∃ props : dict, ∀ key, key ∈ keys_to_ensure → d !! key = Some (default VNone (props !! key))) ∧
  dom d = list_to_set ("search_term" :: keys_to_ensure) ∧
  d !! "search_term" = Some (VStr name) ∧
  d !! "error" = None.

Definition failure_shape (name : string) (d : dict) : Prop :=
  ∃ message, d = failure message name.

Definition outcome_shape (name : string) (d : dict) : Prop :=
  (success_shape name d ∧ ¬ failure_shape name d) ∨
  (failure_shape name d ∧ ¬ success_shape name d).

(** The name an outcome is about: [compound_name] of a failure,
    [search_term] of a record. *)
Definition outcome_name (d : dict) : option value :=
  match d !! "error" with
  | Some _ => d !! "compound_name"
  | None => d !! "search_term"
  end.

(** [d] is what the lookup of [name], as the batch runs it, returned from
    some trace. *)
Definition lookup_outcome (g : Globals) (up : Upstream) (name : string) (d : dict) : Prop :=
  ∃ s0, (search_by_name_with_retries g up name 3 5 s0).1 = inr d.

Definition flow_shape (name : string) (f : flow) : Prop :=
  match f with
  | Return d => outcome_shape name d
  | Continue => True
  end.

(** The proxy switch as the startup reads it: a missing file is created from
    the template, a missing option falls back to [False]. *)
Definition use_proxy_setting (file : option ConfigIni) : bool :=
  default false (ini_use_proxy (default DEFAULT_CONFIG file)).

(** The [proxies] mapping that the settings of an enabled proxy stand for. *)
Definition configured_proxies (str_lower : string → string) (cfg : ConfigIni) : proxy_dict :=
  let proxy_type := str_lower (default "socks5h" (ini_proxy_type cfg)) in
  make_proxies
    (if bool_decide (proxy_type ∈ ["socks5h"; "socks5"; "http"; "https"]) then proxy_type else "socks5h")
    (default "127.0.0.1" (ini_host cfg)) (default 9050 (ini_port cfg)).

(** The trace once an attempt has logged its opening line. *)
Definition attempt_opened (g : Globals) (name : string) (attempt max_retries : Z) (s : trace) : trace :=
  s ++ [EvLog INFO ("Searching (" +:+ CONNECTION_TYPE g +:+ "): '" +:+ name +:+ "' (Attempt " +:+ pretty (attempt + 1) +:+ "/" +:+ pretty max_retries +:+ ")...")].

(** The trace once the by-identifier fetch has been announced and issued. *)
Definition fetch_issued (g : Globals) (name : string) (cid : Z) (s : trace) : trace :=
  s ++ [EvLog INFO ("CID found for '" +:+ name +:+ "': " +:+ pretty cid +:+ ". Fetching full record...");
        EvRequest (FromCid cid (proxies g))].

(** The two lines the startup logs about the proxy type, and the module state
    it leaves with a proxy of that type. *)
Definition proxy_enabled_line (proxy_type proxy_host : string) (proxy_port : Z) : event :=
  EvLog INFO ("[" +:+ upper proxy_type +:+ " PROXY ENABLED] Will attempt to use proxy at " +:+ proxy_host +:+ ":" +:+ pretty proxy_port).

Definition invalid_type_line (proxy_type : string) : event :=
  EvLog ERROR ("Invalid proxy_type '" +:+ proxy_type +:+ "' in config.ini. Defaulting to 'socks5h'.").

Definition proxy_globals (proxy_type proxy_host : string) (proxy_port : Z) : Globals :=
  {| USE_PROXY := true;
     proxies := Some (make_proxies proxy_type proxy_host proxy_port);
     CONNECTION_TYPE := "Proxy " +:+ upper proxy_type +:+ " (" +:+ proxy_url proxy_type proxy_host proxy_port +:+ ")" |}.

Definition is_error_line (e : event) : bool :=
  match e with EvLog ERROR _ => true | _ => false end.

Definition is_critical_line (e : event) : bool :=
  match e with EvLog CRITICAL _ => true | _ => false end.

(** The lengths of the [time.sleep] calls of a stretch of the trace, in
    order. *)
Fixpoint sleeps_of (t : trace) : list Z :=
  match t with
  | [] => []
  | EvSleep secs :: t' => secs :: sleeps_of t'
  | _ :: t' => sleeps_of t'
  end.

(** The request sequences one attempt for [name] can issue. *)
Definition attempt_requests (px : option proxy_dict) (name : string) (rs : list request) : Prop :=
  rs = [GetCompounds name px] ∨
  rs = [GetCompounds name px; GetCids name px] ∨
  ∃ cid, cid ≠ 0 ∧
    (rs = [GetCompounds name px; FromCid cid px] ∨
     rs = [GetCompounds name px; GetCids name px; FromCid cid px]).

(** The outcome the handler gives an exception that is not retried. *)
Definition failure_for (name : string) (e : exn) : dict :=
  match e with
  | PubChemHTTPError _ => http_error name
  | _ => general_error name (str_of e)
  end.

(** [d] is the record made of the upstream properties [props] for the search
    term [name]: each of the seven keys holds the value [props] has for it,
    or [None] when [props] has none; [search_term] is [name]; there is no
    other key, so no [error]. *)
Definition record_of (name : string) (props : dict) (d : dict) : Prop :=
  (∀ key, key ∈ keys_to_ensure → d !! key = Some (default VNone (props !! key))) ∧
  dom d = list_to_set ("search_term" :: keys_to_ensure) ∧
  d !! "search_term" = Some (VStr name) ∧
  d !! "error" = None.

(** [d] is the record of a compound that the upstream returned to a fetch and
    whose [to_dict()] gave properties. *)
Definition fetched_record (g : Globals) (up : Upstream) (name : string) (d : dict) : Prop :=
  ∃ w cid c props,
    from_cid up w cid (proxies g) = inr (Some c) ∧ to_dict c = inr props ∧
    record_of name props d.

(** ** Stub upstreams and startup states used in the examples *)

Module Stub.

(** The module state after a startup with the proxy disabled. *)
Definition direct : Globals :=
  {| USE_PROXY := false; proxies := None; CONNECTION_TYPE := "Direct" |}.

Definition aspirin_props : dict :=
  <["cid" := VInt 2244]>
    (<["molecular_formula" := VStr "C9H8O4"]>
       (<["charge" := VInt 0]>
          (<["synonyms" := VList [VStr "aspirin"; VStr "acetylsalicylic acid"]]> ∅))).

Definition aspirin : Compound :=
  {| cid_attr := Some (Some 2244); to_dict := inr aspirin_props |}.

Definition busy : exn := PubChemHTTPError "PUGREST.ServerBusy: 503 Server Busy".

Definition is_primary (e : event) : bool :=
  match e with EvRequest (GetCompounds _ _) => true | _ => false end.

Definition is_fetch (e : event) : bool :=
  match e with EvRequest (FromCid _ _) => true | _ => false end.

(** Knows "Aspirin" as compound 2244 in the primary domain and nothing
    else; never fails. *)
Definition plain : Upstream := {|
  get_compounds w name px := inr (if String.eqb name "Aspirin" then [aspirin] else []);
  get_cids w name px := inr [];
  from_cid w cid px := inr (Some aspirin);
  tor_check w px := inr "Congratulations. This browser is configured to use Tor."
|}.

(** Like [plain], but the primary search answers "server busy" to its
    first [n] calls. *)
Definition busy_primary (n : nat) : Upstream := {|
  get_compounds w name px :=
    if (length (List.filter is_primary w) <? n)%nat then inl busy
    else get_compounds plain w name px;
  get_cids := get_cids plain;
  from_cid := from_cid plain;
  tor_check := tor_check plain
|}.

(** Like [plain], but the by-identifier fetch answers "server busy" to its
    first call. *)
Definition busy_fetch : Upstream := {|
  get_compounds := get_compounds plain;
  get_cids := get_cids plain;
  from_cid w cid px :=
    if (length (List.filter is_fetch w) <? 1)%nat then inl busy
    else from_cid plain w cid px;
  tor_check := tor_check plain
|}.

(** Knows the name only in the substance domain: the first entry has no
    ['CID'], the second one has. *)
Definition substance_only : Upstream := {|
  get_compounds w name px := inr [];
  get_cids w name px := inr [ {| SID := 11; CID := None |}; {| SID := 12; CID := Some [2244] |} ];
  from_cid := from_cid plain;
  tor_check := tor_check plain
|}.

(** Knows the name in the substance domain only, in the first entry. *)
Definition substance_first : Upstream := {|
  get_compounds w name px := inr [];
  get_cids w name px := inr [ {| SID := 12; CID := Some [2244; 2245] |}; {| SID := 11; CID := None |} ];
  from_cid := from_cid plain;
  tor_check := tor_check plain
|}.

(** The first substance entry lists the identifier 0. *)
Definition substance_zero : Upstream := {|
  get_compounds w name px := inr [];
  get_cids w name px := inr [ {| SID := 13; CID := Some [0; 2244] |} ];
  from_cid := from_cid plain;
  tor_check := tor_check plain
|}.

(** A proxy that cannot be reached. *)
Definition proxy_down : Upstream := {|
  get_compounds := get_compounds plain;
  get_cids := get_cids plain;
  from_cid := from_cid plain;
  tor_check w px := inl (RequestException "SOCKSHTTPSConnectionPool: Max retries exceeded")
|}.

Definition tor_ini : ConfigIni :=
  {| ini_use_proxy := Some true; ini_proxy_type := Some "SOCKS5H";
     ini_host := None; ini_port := Some 9050 |}.

(** The proxy switch is missing; the other fields describe a proxy. *)
Definition off_ini : ConfigIni :=
  {| ini_use_proxy := None; ini_proxy_type := Some "http";
     ini_host := Some "10.0.0.7"; ini_port := Some 8118 |}.

(** The record [compound_to_dict] makes of [aspirin], with its search term. *)
Definition aspirin_record : dict :=
  <["search_term" := VStr "Aspirin"]>
    (list_to_map ((λ key, (key, default VNone (aspirin_props !! key))) <$> keys_to_ensure)).

(** The traces of the three attempts against [busy_primary 2]. *)
Definition busy_trace1 : trace :=
  (try_body direct (busy_primary 2) "Aspirin" 0 3 []).2.

Definition busy_trace2 : trace :=
  (try_body direct (busy_primary 2) "Aspirin" 1 3 (after_busy "Aspirin" 5 busy_trace1)).2.

Definition busy_trace3 : trace :=
  (try_body direct (busy_primary 2) "Aspirin" 2 3 (after_busy "Aspirin" 5 busy_trace2)).2.

(** The trace of the first resolution of "Aspirin". *)
Definition aspirin_resolved : trace :=
  attempt_opened direct "Aspirin" 0 3 [] ++
    [EvLog INFO "   -> Attempt 1: Searching in 'Compound' domain";
     EvRequest (GetCompounds "Aspirin" None)].

(** The proxy check dies of something that is no [RequestException]. *)
Definition check_crashes : Upstream := {|
  get_compounds := get_compounds plain;
  get_cids := get_cids plain;
  from_cid := from_cid plain;
  tor_check w px := inl (OtherException "maximum recursion depth exceeded")
|}.

(** The primary search always answers "server busy". *)
Definition always_busy : Upstream := {|
  get_compounds w name px := inl busy;
  get_cids := get_cids plain;
  from_cid := from_cid plain;
  tor_check := tor_check plain
|}.

(** The primary search rejects the request. *)
Definition bad_request : Upstream := {|
  get_compounds w name px := inl (PubChemHTTPError "PUGREST.BadRequest");
  get_cids := get_cids plain;
  from_cid := from_cid plain;
  tor_check := tor_check plain
|}.

(** The traces of the startups on [tor_ini] and of the first attempt against
    [bad_request]. *)
Definition tor_down_trace : trace := (startup lower_ascii proxy_down (Some tor_ini) []).2.

Definition tor_up_trace : trace := (startup lower_ascii plain (Some tor_ini) []).2.

Definition bad_request_trace : trace :=
  (try_body direct bad_request "Aspirin" 0 3 []).2.

End Stub.

(** ** Reasoning rules for the program monad *)

(** Unfolds the primitives of the monad, to run a program on a symbolic
    trace. *)
Ltac py_run :=
  unfold mbind, Py_bind, mret, Py_ret, log, emit, call, raise; simpl.

Lemma bind_inr {A B} (m : Py A) (f : A → Py B) s a s' :
  m s = (inr a, s') → (m ≫= f) s = f a s'.
Proof. intros H. unfold mbind, Py_bind. by rewrite H. Qed.

Lemma bind_inl {A B} (m : Py A) (f : A → Py B) s e s' :
  m s = (inl e, s') → (m ≫= f) s = (inl e, s').
Proof. intros H. unfold mbind, Py_bind. by rewrite H. Qed.

Lemma emit_run e s : emit e s = (inr tt, s ++ [e]).
Proof. reflexivity. Qed.

Lemma log_run lvl msg s : log lvl msg s = (inr tt, s ++ [EvLog lvl msg]).
Proof. reflexivity. Qed.

Section Rules.
Context {A B : Type} (P : event → Prop).

Lemma emits_ret (a : A) : emits P (mret a).
Proof. intros s. exists []. by rewrite app_nil_r. Qed.

Lemma emits_raise (e : exn) : emits P (raise e : Py A).
Proof. intros s. exists []. by rewrite app_nil_r. Qed.

Lemma emits_bind (m : Py A) (f : A → Py B) :
  emits P m → (∀ a, emits P (f a)) → emits P (m ≫= f).
Proof.
  intros Hm Hf s. destruct (Hm s) as (t & Ht & HP).
  destruct (m s) as [[e|a] s'] eqn:E; simpl in Ht; subst s'.
  - exists t. by rewrite (bind_inl _ _ _ _ _ E).
  - rewrite (bind_inr _ _ _ _ _ E).
    destruct (Hf a (s ++ t)) as (t' & Ht' & HP').
    exists (t ++ t'). rewrite Ht', app_assoc. split; [done|by apply Forall_app].
Qed.

Lemma emits_try_except (body : Py A) (h : exn → Py A) :
  emits P body → (∀ e, emits P (h e)) → emits P (try_except body h).
Proof.
  intros Hm Hh s. destruct (Hm s) as (t & Ht & HP). unfold try_except.
  destruct (body s) as [[e|a] s'] eqn:E; simpl in Ht; subst s'.
  - destruct (Hh e (s ++ t)) as (t' & Ht' & HP').
    exists (t ++ t'). rewrite Ht', app_assoc. split; [done|by apply Forall_app].
  - by exists t.
Qed.

Lemma emits_call (r : request) (answer : trace → exn + A) :
  P (EvRequest r) → emits P (call r answer).
Proof. intros H s. exists [EvRequest r]. split; [done|by constructor]. Qed.
End Rules.

Lemma emits_emit (P : event → Prop) e : P e → emits P (emit e).
Proof. intros H s. exists [e]. split; [done|by constructor]. Qed.

Lemma emits_log (P : event → Prop) lvl msg : P (EvLog lvl msg) → emits P (log lvl msg).
Proof. apply emits_emit. Qed.

Lemma emits_time_sleep (P : event → Prop) secs : P (EvSleep secs) → emits P (time_sleep secs).
Proof.
  intros H. unfold time_sleep. destruct (secs <? 0); [apply emits_raise|by apply emits_emit].
Qed.

Section ReturnRules.
Context {A B : Type}.

Lemma returns_bind (Q1 : exn + A → Prop) (Q2 : exn + B → Prop) (m : Py A) (f : A → Py B) :
  returns Q1 m →
  (∀ e, Q1 (inl e) → Q2 (inl e)) →
  (∀ a, Q1 (inr a) → returns Q2 (f a)) →
  returns Q2 (m ≫= f).
Proof.
  intros Hm He Hf s. specialize (Hm s).
  destruct (m s) as [[e|a] s'] eqn:E; simpl in Hm.
  - rewrite (bind_inl _ _ _ _ _ E). by apply He.
  - rewrite (bind_inr _ _ _ _ _ E). by apply Hf.
Qed.

Lemma returns_try_except (Q1 Q2 : exn + A → Prop) (body : Py A) (h : exn → Py A) :
  returns Q1 body →
  (∀ a, Q1 (inr a) → Q2 (inr a)) →
  (∀ e, Q1 (inl e) → returns Q2 (h e)) →
  returns Q2 (try_except body h).
Proof.
  intros Hm Ha Hh s. specialize (Hm s). unfold try_except.
  destruct (body s) as [[e|a] s'] eqn:E; simpl in Hm.
  - by apply Hh.
  - by apply Ha.
Qed.

Lemma returns_ret (Q : exn + A → Prop) (a : A) : Q (inr a) → returns Q (mret a).
Proof. intros H s. exact H. Qed.

Lemma returns_any (m : Py A) : returns (λ _, True) m.
Proof. by intros s. Qed.
End ReturnRules.

Lemma returns_unit (m : Py unit) Q : 
  returns (λ r, r = inr tt) m → Q (inr tt) → returns Q m.
Proof. intros H HQ s. by rewrite (H s). Qed.

(** ** What a lookup puts on the trace *)

Create HintDb py_emits.
#[local] Hint Resolve emits_ret emits_raise emits_log emits_emit emits_call emits_time_sleep : py_emits.
#[local] Hint Extern 2 (emits _ (_ ≫= _)) => apply emits_bind; [|intros ?] : py_emits.
#[local] Hint Extern 1 (lookup_event _ _) => exact I : py_emits.
#[local] Hint Extern 1 (lookup_event _ (EvRequest _)) => reflexivity : py_emits.

Section LookupEvents.
Context (g : Globals) (up : Upstream).

Lemma compound_to_dict_emits P c :
  (∀ lvl msg, P (EvLog lvl msg)) → emits P (compound_to_dict c).
Proof.
  intros HP. unfold compound_to_dict.
  destruct c as [c|]; [destruct (to_dict c)|]; auto with py_emits.
Qed.

Lemma resolve_emits name : emits (lookup_event (proxies g)) (resolve g up name).
Proof.
  unfold resolve. apply emits_bind; [auto with py_emits|intros _].
  apply emits_bind; [auto with py_emits|intros compounds].
  destruct (negb _); auto with py_emits.
Qed.

Lemma fetch_record_emits name cid :
  emits (lookup_event (proxies g)) (fetch_record g up name cid).
Proof.
  unfold fetch_record. apply emits_bind; [auto with py_emits|intros _].
  apply emits_bind; [auto with py_emits|intros c].
  apply emits_bind; [by apply compound_to_dict_emits|intros [d|]]; auto with py_emits.
Qed.

Lemma try_body_emits name attempt max_retries :
  emits (lookup_event (proxies g)) (try_body g up name attempt max_retries).
Proof.
  unfold try_body, no_valid_cid. apply emits_bind; [auto with py_emits|intros _].
  apply emits_bind; [apply resolve_emits|intros [cid|]]; [destruct (cid =? 0)|];
    auto using fetch_record_emits with py_emits.
Qed.

Lemma handler_emits name retry_delay e :
  emits (lookup_event (proxies g)) (handler name retry_delay e).
Proof.
  unfold handler. destruct e as [msg|msg|msg]; [destruct (server_busy msg)|..];
    auto 6 with py_emits.
Qed.

Lemma iteration_emits name attempt max_retries retry_delay :
  emits (lookup_event (proxies g)) (iteration g up name attempt max_retries retry_delay).
Proof.
  unfold iteration. apply emits_try_except; [|apply handler_emits].
  apply emits_bind; [apply try_body_emits|auto with py_emits].
Qed.

Lemma retry_loop_emits name max_retries retry_delay left attempt :
  emits (lookup_event (proxies g)) (retry_loop g up name max_retries retry_delay left attempt).
Proof.
  revert attempt. induction left as [|left IH]; intros attempt; simpl.
  - auto with py_emits.
  - apply emits_bind; [apply iteration_emits|intros [d|]]; auto with py_emits.
Qed.

Lemma search_by_name_emits name max_retries retry_delay :
  emits (lookup_event (proxies g)) (search_by_name_with_retries g up name max_retries retry_delay).
Proof. apply retry_loop_emits. Qed.

End LookupEvents.

(** ** The shape of an outcome *)

Lemma failure_error message name : failure message name !! "error" = Some (VStr message).
Proof. unfold failure. by rewrite lookup_insert_ne, lookup_insert_eq. Qed.

Lemma failure_compound_name message name :
  failure message name !! "compound_name" = Some (VStr name).
Proof. unfold failure. by rewrite lookup_insert_eq. Qed.

Lemma failure_outcome message name : outcome_shape name (failure message name).
Proof.
  right. split; [by exists message|].
  intros (_ & _ & _ & H). by rewrite failure_error in H.
Qed.

Lemma success_outcome name d : success_shape name d → outcome_shape name d.
Proof.
  intros H. left. split; [done|]. intros [message ->].
  destruct H as (_ & _ & _ & H). by rewrite failure_error in H.
Qed.

(** The dictionary comprehension of line 107 followed by line 136. *)
Lemma projected_success name (props : dict) :
  success_shape name
    (<["search_term" := VStr name]>
       (list_to_map ((λ key, (key, default VNone (props !! key))) <$> keys_to_ensure))).
Proof.
  unfold success_shape, keys_to_ensure. cbn [fmap list_fmap list_to_map foldr curry fst snd].
  split; [|split; [|split]].
  - exists props. intros key Hkey.
    repeat (apply elem_of_cons in Hkey as [->|Hkey]); [..|by apply elem_of_nil in Hkey];
      by simplify_map_eq.
  - rewrite !dom_insert_L. cbn. set_solver.
  - by simplify_map_eq.
  - by simplify_map_eq.
Qed.

Lemma outcome_shape_name name d : outcome_shape name d → outcome_name d = Some (VStr name).
Proof.
  unfold outcome_name. intros [[(_ & _ & Hname & Herr) _]|[[message ->] _]].
  - by rewrite Herr.
  - by rewrite failure_error, failure_compound_name.
Qed.

Section Outcomes.
Context (g : Globals) (up : Upstream).

Lemma compound_to_dict_returns c :
  returns (λ r, ∃ o, r = inr o ∧
             ∀ d, o = Some d → ∃ props : dict,
               d = list_to_map ((λ key, (key, default VNone (props !! key))) <$> keys_to_ensure))
          (compound_to_dict c).
Proof.
  intros s. unfold compound_to_dict.
  destruct c as [c|]; [destruct (to_dict c) as [e|props]|]; py_run.
  - exists None. by split.
  - exists (Some (list_to_map ((λ key, (key, default VNone (props !! key))) <$> keys_to_ensure))).
    split; [done|]. intros d [= <-]. by exists props.
  - exists None. by split.
Qed.

Lemma fetch_record_returns name cid :
  returns (λ r, ∀ d, r = inr d → outcome_shape name d) (fetch_record g up name cid).
Proof.
  unfold fetch_record.
  eapply returns_bind; [apply returns_any|done|intros _ _].
  eapply returns_bind; [apply returns_any|done|intros c _].
  eapply returns_bind; [apply compound_to_dict_returns|by intros e (o & ? & _)|].
  intros o (o' & [= <-] & Ho). destruct o as [d|].
  - destruct (Ho d eq_refl) as [props ->].
    apply returns_ret. intros d [= <-]. apply success_outcome, projected_success.
  - apply returns_ret. intros d [= <-]. apply failure_outcome.
Qed.

Lemma no_valid_cid_returns name :
  returns (λ r, ∀ d, r = inr d → outcome_shape name d) (no_valid_cid name).
Proof. intros s d. py_run. intros [= <-]. apply failure_outcome. Qed.

Lemma try_body_returns name attempt max_retries :
  returns (λ r, ∀ d, r = inr d → outcome_shape name d) (try_body g up name attempt max_retries).
Proof.
  unfold try_body.
  eapply returns_bind; [apply returns_any|done|intros _ _].
  eapply returns_bind; [apply returns_any|done|intros [cid|] _].
  - destruct (cid =? 0); [apply no_valid_cid_returns|apply fetch_record_returns].
  - apply no_valid_cid_returns.
Qed.

Lemma handler_returns name retry_delay e :
  0 ≤ retry_delay →
  returns (λ r, ∃ f, r = inr f ∧ flow_shape name f) (handler name retry_delay e).
Proof.
  intros Hdelay s. unfold handler, time_sleep.
  destruct (Z.ltb_spec retry_delay 0) as [?|_]; [lia|].
  destruct e as [msg|msg|msg]; [destruct (server_busy msg)|..]; py_run;
    eexists; (split; [reflexivity|]); simpl; try done; apply failure_outcome.
Qed.

Lemma iteration_returns name attempt max_retries retry_delay :
  0 ≤ retry_delay →
  returns (λ r, ∃ f, r = inr f ∧ flow_shape name f)
          (iteration g up name attempt max_retries retry_delay).
Proof.
  intros Hdelay. unfold iteration.
  eapply returns_try_except with (Q1 := λ r, ∀ f, r = inr f → flow_shape name f).
  - eapply returns_bind; [apply try_body_returns|done|].
    intros d Hd. apply returns_ret. intros f [= <-]. by apply Hd.
  - intros f Hf. exists f. split; [done|by apply Hf].
  - intros e _. by apply handler_returns.
Qed.

Lemma retry_loop_returns name max_retries retry_delay left attempt :
  0 ≤ retry_delay →
  returns (λ r, ∃ d, r = inr d ∧ outcome_shape name d)
          (retry_loop g up name max_retries retry_delay left attempt).
Proof.
  intros Hdelay. revert attempt. induction left as [|left IH]; intros attempt; simpl.
  - intros s. py_run. eexists. split; [done|apply failure_outcome].
  - eapply returns_bind; [by apply iteration_returns|by intros e (f & ? & _)|].
    intros f (f' & [= <-] & Hf). destruct f as [d|]; [|apply IH].
    apply returns_ret. by exists d.
Qed.

(** The lookup of one name always returns, with an outcome of one of the
    two shapes. *)
Lemma search_by_name_returns name max_retries retry_delay s :
  0 ≤ retry_delay →
  ∃ d s', search_by_name_with_retries g up name max_retries retry_delay s = (inr d, s') ∧
          outcome_shape name d.
Proof.
  intros Hdelay.
  destruct (retry_loop_returns name max_retries retry_delay (Z.to_nat max_retries) 0 Hdelay s)
    as (d & Hd & Hshape).
  unfold search_by_name_with_retries.
  destruct (retry_loop _ _ _ _ _ _ _ s) as [r s'] eqn:E. simpl in Hd. subst r.
  by exists d, s'.
Qed.

Lemma batch_loop_outcomes names all_results s :
  ∃ results s', batch_loop g up names all_results s = (inr (all_results ++ results), s') ∧
    Forall2 (λ name d, lookup_outcome g up name d ∧ outcome_shape name d) names results.
Proof.
  revert all_results s. induction names as [|name names IH]; intros all_results s; simpl.
  - exists [], s. rewrite app_nil_r. by split.
  - destruct (search_by_name_returns name 3 5 s ltac:(lia)) as (d & s1 & Hd & Hshape).
    rewrite (bind_inr _ _ _ _ _ Hd). py_run.
    destruct (IH (all_results ++ [d]) ((s1 ++ [EvLog INFO "Pausing for 2.0s."]) ++ [EvPause PAUSE_BETWEEN_REQUESTS]))
      as (results & s' & Hrun & Hall).
    exists (d :: results), s'. rewrite Hrun, <- app_assoc. split; [done|].
    constructor; [|done]. split; [|done]. exists s. by rewrite Hd.
Qed.
End Outcomes.

(** ** The trace of a batch *)

Lemma lookup_event_batch px e : lookup_event px e → batch_event px e.
Proof. by destruct e. Qed.

Lemma batch_event_uses_proxy px e : batch_event px e → uses_proxy px e.
Proof. destruct e as [| | |[]| |]; simpl; done. Qed.

Lemma emits_weaken {A} (P Q : event → Prop) (m : Py A) :
  (∀ e, P e → Q e) → emits P m → emits Q m.
Proof.
  intros HPQ Hm s. destruct (Hm s) as (t & Ht & HP).
  exists t. split; [done|]. by eapply Forall_impl.
Qed.

Section BatchTrace.
Context (g : Globals) (up : Upstream).

Lemma batch_loop_emits names all_results :
  emits (batch_event (proxies g)) (batch_loop g up names all_results).
Proof.
  revert all_results. induction names as [|name names IH]; intros all_results; simpl.
  - apply emits_ret.
  - apply emits_bind; [|intros d].
    { eapply emits_weaken; [apply lookup_event_batch|apply search_by_name_emits]. }
    apply emits_bind; [by apply emits_log|intros _].
    apply emits_bind; [by apply emits_emit|intros _]. apply IH.
Qed.

Lemma search_compounds_by_name_emits names :
  emits (batch_event (proxies g)) (search_compounds_by_name g up names).
Proof.
  unfold search_compounds_by_name, log_results_to_file.
  apply emits_bind; [by apply emits_log|intros _].
  apply emits_bind; [apply batch_loop_emits|intros results].
  apply emits_bind; [|intros _; apply emits_ret].
  apply emits_bind; [by apply emits_log|intros _].
  apply emits_bind; [by apply emits_emit|intros _]. by apply emits_log.
Qed.

(** Every request of a batch is issued with the module's [proxies]. *)
Lemma batch_requests_use_proxies names s :
  ∃ t, (search_compounds_by_name g up names s).2 = s ++ t ∧
       Forall (uses_proxy (proxies g)) t.
Proof.
  destruct (search_compounds_by_name_emits names s) as (t & Ht & HP).
  exists t. split; [done|]. eapply Forall_impl; [exact HP|apply batch_event_uses_proxy].
Qed.
End BatchTrace.

(** ** Startup *)

(** C7.  When the proxy switch is off (the option is false or missing, or
    there is no config.ini yet), whatever the proxy type, host and port say:
    startup completes with [proxies = None] and issues no request of its
    own, and every request of every later batch (primary search, substance
    search, fetch) is issued with [proxies = None]. *)
Theorem proxy_disabled_means_direct str_lower up file s :
  use_proxy_setting file = false →
  ∃ g s',
    startup str_lower up file s = (inr g, s') ∧
    proxies g = None ∧
    (∃ t, s' = s ++ t ∧ requests_of t = []) ∧
    ∀ up' names s1, ∃ t,
      (search_compounds_by_name g up' names s1).2 = s1 ++ t ∧
      Forall (uses_proxy None) t.
Proof.
  unfold use_proxy_setting. intros Hoff.
  set (g := {| USE_PROXY := false; proxies := None; CONNECTION_TYPE := "Direct" |}).
  assert (Hbatch : ∀ up' names s1, ∃ t,
            (search_compounds_by_name g up' names s1).2 = s1 ++ t ∧ Forall (uses_proxy None) t)
    by (intros up'; apply (batch_requests_use_proxies g up')).
  exists g. destruct file as [cfg|]; simpl in Hoff; unfold startup.
  - eexists. py_run. rewrite Hoff. py_run. split; [reflexivity|]. split; [done|].
    split; [by eexists|done].
  - eexists. py_run. split; [reflexivity|]. split; [done|]. split; [|done].
    eexists. by rewrite <- !app_assoc.
Qed.

Lemma wire_app s t : wire (s ++ t) = wire s ++ wire t.
Proof. apply List.filter_app. Qed.

Lemma wire_log s lvl msg : wire (s ++ [EvLog lvl msg]) = wire s.
Proof. rewrite wire_app. apply app_nil_r. Qed.

Lemma search_compounds_by_name_runs g up names s :
  ∃ results s',
    search_compounds_by_name g up names s = (inr results, s') ∧
    Forall2 (λ name d, lookup_outcome g up name d ∧ outcome_shape name d) names results.
Proof.
  unfold search_compounds_by_name. rewrite (bind_inr _ _ _ _ _ (log_run _ _ _)).
  destruct (batch_loop_outcomes g up names [] (s ++ [EvLog INFO ("Initiating SMART and SEQUENTIAL search for " +:+ pretty (Z.of_nat (length names)) +:+ " compounds...")]))
    as (results & s' & Hrun & Hall).
  rewrite (bind_inr _ _ _ _ _ Hrun). simpl. unfold log_results_to_file. py_run.
  by eexists _, _.
Qed.

(** A batch always answers, one outcome per name, and all its requests go
    out with the module's [proxies]. *)
Lemma batch_answers_through_proxies g up names s :
  ∃ results s' t,
    search_compounds_by_name g up names s = (inr results, s') ∧
    length results = length names ∧
    s' = s ++ t ∧
    Forall (uses_proxy (proxies g)) t.
Proof.
  destruct (search_compounds_by_name_runs g up names s) as (results & s' & Hrun & Hall).
  destruct (batch_requests_use_proxies g up names s) as (t & Ht & HP).
  rewrite Hrun in Ht. exists results, s', t.
  split; [done|]. split; [symmetry; by eapply Forall2_length|done].
Qed.

(** C10.  With the proxy enabled, when the startup check raises a
    [RequestException] (timeout, refused connection, unsupported scheme):
    startup still completes, a CRITICAL line is logged, the module keeps the
    configured [proxies], and every later batch answers, one outcome per
    name, with all its requests issued through those [proxies]. *)
Theorem proxy_check_failure_not_fatal str_lower up cfg s msg :
  ini_use_proxy cfg = Some true →
  tor_check up (wire s) (Some (configured_proxies str_lower cfg)) = inl (RequestException msg) →
  ∃ g t,
    startup str_lower up (Some cfg) s = (inr g, s ++ t) ∧
    (∃ text, EvLog CRITICAL text ∈ t) ∧
    proxies g = Some (configured_proxies str_lower cfg) ∧
    ∀ up' names s1, ∃ results s1' t1,
      search_compounds_by_name g up' names s1 = (inr results, s1') ∧
      length results = length names ∧
      s1' = s1 ++ t1 ∧
      Forall (uses_proxy (Some (configured_proxies str_lower cfg))) t1.
Proof.
  intros Hon Hdown. unfold startup, configured_proxies in *. py_run. rewrite Hon. simpl.
  set (proxy_type := str_lower (default "socks5h" (ini_proxy_type cfg))) in *.
  set (proxy_host := default "127.0.0.1" (ini_host cfg)) in *.
  set (proxy_port := default 9050 (ini_port cfg)) in *.
  destruct (bool_decide (proxy_type ∈ ["socks5h"; "socks5"; "http"; "https"])); simpl;
    unfold proxy_check, try_except; py_run; rewrite ?wire_log, Hdown; simpl.
  all: eexists _, _; rewrite <- !app_assoc; simpl.
  all: split; [reflexivity|]; split; [eexists; repeat (try (by left); right)|].
  all: split; [reflexivity|].
  all: intros up' names s1.
  all: match goal with
       | |- context [search_compounds_by_name ?g _ _ _] =>
           apply (batch_answers_through_proxies g up')
       end.
Qed.

(** ** Pacing *)

Lemma total_pacing_app t1 t2 :
  (total_pacing (t1 ++ t2) == total_pacing t1 + total_pacing t2)%Q.
Proof.
  induction t1 as [|e t1 IH]; simpl.
  - by rewrite Qplus_0_l.
  - by rewrite IH, Qplus_assoc.
Qed.

Lemma lookup_no_pacing px t : Forall (lookup_event px) t → total_pacing t = 0%Q.
Proof.
  induction 1 as [|e t He _ IH]; [done|]. simpl. rewrite IH.
  by destruct e.
Qed.

Section Pacing.
Context (g : Globals) (up : Upstream).

Lemma batch_loop_app names1 names2 all_results s :
  batch_loop g up (names1 ++ names2) all_results s =
  (batch_loop g up names1 all_results ≫= batch_loop g up names2) s.
Proof.
  revert all_results s. induction names1 as [|name names1 IH]; intros all_results s; [done|].
  simpl. unfold mbind at 1 4 5, Py_bind.
  destruct (search_by_name_with_retries g up name 3 5 s) as [[e|d] s1]; [done|].
  py_run. apply IH.
Qed.

Lemma batch_loop_pacing names all_results s :
  ∃ t, (batch_loop g up names all_results s).2 = s ++ t ∧
       (total_pacing t == inject_Z 2 * inject_Z (Z.of_nat (length names)))%Q.
Proof.
  revert all_results s. induction names as [|name names IH]; intros all_results s.
  - exists []. simpl. by rewrite app_nil_r.
  - destruct (search_by_name_returns g up name 3 5 s ltac:(lia)) as (d & s1 & Hd & _).
    destruct (search_by_name_emits g up name 3 5 s) as (t1 & Ht1 & HP).
    rewrite Hd in Ht1. simpl in Ht1. subst s1.
    cbn [batch_loop]. rewrite (bind_inr _ _ _ _ _ Hd). py_run.
    destruct (IH (all_results ++ [d])
                 (((s ++ t1) ++ [EvLog INFO "Pausing for 2.0s."]) ++ [EvPause PAUSE_BETWEEN_REQUESTS]))
      as (t2 & Ht2 & Hsum).
    exists (t1 ++ [EvLog INFO "Pausing for 2.0s."; EvPause PAUSE_BETWEEN_REQUESTS] ++ t2).
    split.
    + rewrite Ht2. by rewrite <- !app_assoc.
    + rewrite !total_pacing_app, Hsum, (lookup_no_pacing _ _ HP).
      cbn [total_pacing pacing_delay length]. rewrite Nat2Z.inj_succ, <- Z.add_1_r, inject_Z_plus.
      unfold PAUSE_BETWEEN_REQUESTS. ring.
Qed.

Lemma search_compounds_by_name_pacing names s :
  ∃ t, (search_compounds_by_name g up names s).2 = s ++ t ∧
       (total_pacing t == inject_Z 2 * inject_Z (Z.of_nat (length names)))%Q.
Proof.
  unfold search_compounds_by_name. rewrite (bind_inr _ _ _ _ _ (log_run _ _ _)).
  set (s0 := s ++ [_]).
  destruct (batch_loop_outcomes g up names [] s0) as (results & s' & Hrun & _).
  destruct (batch_loop_pacing names [] s0) as (t & Ht & Hsum).
  rewrite Hrun in Ht. simpl in Ht. subst s'.
  rewrite (bind_inr _ _ _ _ _ Hrun). unfold log_results_to_file. py_run.
  eexists. subst s0. rewrite <- !app_assoc. split; [reflexivity|].
  change (?e :: ?t ++ ?u) with ([e] ++ t ++ u).
  rewrite !total_pacing_app, Hsum. simpl. ring.
Qed.

Lemma batch_loop_ends_with_pause before name all_results s :
  ∃ all_results1 s1,
    batch_loop g up (before ++ [name]) all_results s =
      (inr all_results1, s1 ++ [EvLog INFO "Pausing for 2.0s."; EvPause PAUSE_BETWEEN_REQUESTS]).
Proof.
  rewrite batch_loop_app.
  destruct (batch_loop_outcomes g up before all_results s) as (results & s0 & Hrun & _).
  rewrite (bind_inr _ _ _ _ _ Hrun). simpl.
  destruct (search_by_name_returns g up name 3 5 s0 ltac:(lia)) as (d & s1 & Hd & _).
  rewrite (bind_inr _ _ _ _ _ Hd). py_run.
  exists ((all_results ++ results) ++ [d]), s1. f_equal. by rewrite <- app_assoc.
Qed.
End Pacing.

(** C8.  The batch pauses [PAUSE_BETWEEN_REQUESTS] = 2.0 s after every name,
    whatever its lookup returned: (1) wherever the list of names is cut
    after a name, the processing of the names that follow starts from a
    trace whose last event is that pause; (2) the pacing delay a batch
    requests is 2.0 s times the number of names; (3) for three names it is
    at least 4.0 s. *)
Theorem pacing_between_consecutive_names g up :
  (∀ before name after all_results s, ∃ all_results1 s1,
      batch_loop g up (before ++ [name]) all_results s =
        (inr all_results1, s1 ++ [EvLog INFO "Pausing for 2.0s."; EvPause PAUSE_BETWEEN_REQUESTS]) ∧
      batch_loop g up (before ++ name :: after) all_results s =
        batch_loop g up after all_results1
          (s1 ++ [EvLog INFO "Pausing for 2.0s."; EvPause PAUSE_BETWEEN_REQUESTS])) ∧
  (∀ names s, ∃ t,
      (search_compounds_by_name g up names s).2 = s ++ t ∧
      (total_pacing t == PAUSE_BETWEEN_REQUESTS * inject_Z (Z.of_nat (length names)))%Q) ∧
  (∀ name1 name2 name3 s, ∃ t,
      (search_compounds_by_name g up [name1; name2; name3] s).2 = s ++ t ∧
      (4 <= total_pacing t)%Q).
Proof.
  split; [|split].
  - intros before name after all_results s.
    destruct (batch_loop_ends_with_pause g up before name all_results s) as (acc1 & s1 & Hrun).
    exists acc1, s1. split; [done|].
    change (name :: after) with ([name] ++ after).
    by rewrite app_assoc, batch_loop_app, (bind_inr _ _ _ _ _ Hrun).
  - intros names s. apply search_compounds_by_name_pacing.
  - intros name1 name2 name3 s.
    destruct (search_compounds_by_name_pacing g up [name1; name2; name3] s) as (t & Ht & Hsum).
    exists t. split; [done|]. rewrite Hsum. done.
Qed.

(** ** One outcome per name *)

(** C1.  For every list of names, whatever the upstream answers or raises,
    [search_compounds_by_name] returns a list with one outcome per name, in
    the order of the names: the i-th outcome is what the lookup of the i-th
    name returned, and it carries that name. *)
Theorem batch_outcomes_match_names g up names s :
  ∃ results s',
    search_compounds_by_name g up names s = (inr results, s') ∧
    length results = length names ∧
    outcome_name <$> results = (λ name, Some (VStr name)) <$> names ∧
    Forall2 (lookup_outcome g up) names results.
Proof.
  destruct (search_compounds_by_name_runs g up names s) as (results & s' & Hrun & Hall).
  exists results, s'. split; [done|]. clear Hrun.
  induction Hall as [|name d names results [Hd Hshape] _ (IH1 & IH2 & IH3)]; [done|].
  rewrite !fmap_cons, IH2, (outcome_shape_name name d Hshape). simpl. rewrite IH1.
  split; [done|split; [done|by constructor]].
Qed.

(** ** Runs that look the same on the wire *)

Section SameWire.
Context {A B : Type}.

Lemma same_wire_ret (a : A) : same_wire (mret a) (mret a).
Proof. by intros s1 s2 H. Qed.

Lemma same_wire_bind (m1 m2 : Py A) (f1 f2 : A → Py B) :
  same_wire m1 m2 → (∀ a, same_wire (f1 a) (f2 a)) → same_wire (m1 ≫= f1) (m2 ≫= f2).
Proof.
  intros Hm Hf s1 s2 Hs. destruct (Hm s1 s2 Hs) as [Hr Hw].
  unfold mbind, Py_bind.
  destruct (m1 s1) as [[e1|a1] s1'], (m2 s2) as [[e2|a2] s2']; simpl in *;
    try discriminate; injection Hr as ->; [by split|by apply Hf].
Qed.

Lemma same_wire_call (r : request) (answer : trace → exn + A) :
  same_wire (call r answer) (call r answer).
Proof. intros s1 s2 Hs. unfold call. simpl. by rewrite !wire_app, Hs. Qed.
End SameWire.

Lemma same_wire_log lvl1 msg1 lvl2 msg2 : same_wire (log lvl1 msg1) (log lvl2 msg2).
Proof. intros s1 s2 Hs. py_run. by rewrite !wire_log. Qed.

Section SameWireLookup.
Context (g : Globals) (up : Upstream).

Lemma compound_to_dict_same_wire c : same_wire (compound_to_dict c) (compound_to_dict c).
Proof.
  unfold compound_to_dict. destruct c as [c|]; [destruct (to_dict c)|];
    auto using same_wire_ret, same_wire_bind, same_wire_log.
Qed.

Lemma resolve_same_wire name : same_wire (resolve g up name) (resolve g up name).
Proof.
  unfold resolve. apply same_wire_bind; [apply same_wire_log|intros _].
  apply same_wire_bind; [apply same_wire_call|intros compounds].
  destruct (negb _); [|apply same_wire_ret].
  apply same_wire_bind; [apply same_wire_log|intros _].
  apply same_wire_bind; [apply same_wire_call|intros entries]. apply same_wire_ret.
Qed.

Lemma fetch_record_same_wire name cid :
  same_wire (fetch_record g up name cid) (fetch_record g up name cid).
Proof.
  unfold fetch_record. apply same_wire_bind; [apply same_wire_log|intros _].
  apply same_wire_bind; [apply same_wire_call|intros c].
  apply same_wire_bind; [apply compound_to_dict_same_wire|intros [d|]]; apply same_wire_ret.
Qed.

(** The attempt number and the retry budget only show in a log line: they
    change nothing of what an attempt asks and gets. *)
Lemma try_body_same_wire name attempt1 max_retries1 attempt2 max_retries2 :
  same_wire (try_body g up name attempt1 max_retries1) (try_body g up name attempt2 max_retries2).
Proof.
  unfold try_body, no_valid_cid. apply same_wire_bind; [apply same_wire_log|intros _].
  apply same_wire_bind; [apply resolve_same_wire|intros [cid|]]; [destruct (cid =? 0)|];
    auto using fetch_record_same_wire, same_wire_ret, same_wire_bind, same_wire_log.
Qed.

End SameWireLookup.

(** ** One pass of the retry loop *)

Section RetryPass.
Context (g : Globals) (up : Upstream).

Lemma iteration_returned name attempt max_retries retry_delay s d s1 :
  try_body g up name attempt max_retries s = (inr d, s1) →
  iteration g up name attempt max_retries retry_delay s = (inr (Return d), s1).
Proof. intros H. unfold iteration, try_except. by rewrite (bind_inr _ _ _ _ _ H). Qed.

Lemma iteration_busy name attempt max_retries retry_delay s e s1 :
  0 ≤ retry_delay →
  try_body g up name attempt max_retries s = (inl e, s1) → transient e = true →
  iteration g up name attempt max_retries retry_delay s =
    (inr Continue, after_busy name retry_delay s1).
Proof.
  intros Hdelay H He. unfold iteration, try_except. rewrite (bind_inl _ _ _ _ _ H).
  destruct e as [msg|msg|msg]; try done. simpl in He. unfold handler, time_sleep.
  rewrite He. destruct (Z.ltb_spec retry_delay 0) as [?|_]; [lia|].
  py_run. unfold after_busy. by rewrite <- app_assoc.
Qed.

Lemma iteration_failed name attempt max_retries retry_delay s e s1 :
  try_body g up name attempt max_retries s = (inl e, s1) → transient e = false →
  ∃ message text,
    iteration g up name attempt max_retries retry_delay s =
      (inr (Return (failure message name)), s1 ++ [EvLog ERROR text]).
Proof.
  intros H He. unfold iteration, try_except. rewrite (bind_inl _ _ _ _ _ H).
  destruct e as [msg|msg|msg]; simpl in He; unfold handler; rewrite ?He; py_run;
    by eexists _, _.
Qed.

Lemma retry_loop_exhausted name max_retries retry_delay attempt s :
  retry_loop g up name max_retries retry_delay 0 attempt s =
    (inr (transient_failure name max_retries),
     s ++ [EvLog ERROR ("Failed to search for '" +:+ name +:+ "' after " +:+ pretty max_retries +:+ " attempts.")]).
Proof. reflexivity. Qed.

Lemma retry_loop_step name max_retries retry_delay left attempt s f s1 :
  iteration g up name attempt max_retries retry_delay s = (inr f, s1) →
  retry_loop g up name max_retries retry_delay (S left) attempt s =
    match f with
    | Return d => (inr d, s1)
    | Continue => retry_loop g up name max_retries retry_delay left (attempt + 1) s1
    end.
Proof. intros H. cbn [retry_loop]. rewrite (bind_inr _ _ _ _ _ H). by destruct f. Qed.
End RetryPass.

Lemma transient_not_not_found name max_retries :
  transient_failure name max_retries ≠ not_found name.
Proof.
  intros H. apply (f_equal (lookup "error")) in H.
  unfold transient_failure, not_found in H. rewrite !failure_error in H. done.
Qed.

Lemma wire_after_busy name retry_delay s :
  wire (after_busy name retry_delay s) = wire s ++ [EvSleep retry_delay].
Proof. unfold after_busy. by rewrite wire_app. Qed.

(** C2.  Take any upstream and any name for which the first and the second
    attempt raise a transient "server busy" error and the third returns a
    record [d] without an [error] field.  With [max_retries = 3] the lookup
    returns [d]; against the same upstream from the same trace, with
    [max_retries = 2] it returns the failure of line 152, which differs from
    the not-found failure. *)
Theorem busy_twice_then_success g up name s e1 s1 e2 s2 d s3 :
  try_body g up name 0 3 s = (inl e1, s1) → transient e1 = true →
  try_body g up name 1 3 (after_busy name 5 s1) = (inl e2, s2) → transient e2 = true →
  try_body g up name 2 3 (after_busy name 5 s2) = (inr d, s3) → d !! "error" = None →
  search_by_name_with_retries g up name 3 5 s = (inr d, s3) ∧
  (search_by_name_with_retries g up name 2 5 s).1 = inr (transient_failure name 2) ∧
  transient_failure name 2 ≠ not_found name.
Proof.
  intros H1 He1 H2 He2 H3 _. split; [|split; [|apply transient_not_not_found]].
  - unfold search_by_name_with_retries. change (Z.to_nat 3) with 3%nat.
    rewrite (retry_loop_step _ _ _ _ _ _ _ _ _ _ (iteration_busy _ _ _ _ _ 5 _ _ _ ltac:(lia) H1 He1)).
    rewrite (retry_loop_step _ _ _ _ _ _ _ _ _ _ (iteration_busy _ _ _ _ _ 5 _ _ _ ltac:(lia) H2 He2)).
    by rewrite (retry_loop_step _ _ _ _ _ _ _ _ _ _ (iteration_returned _ _ _ _ _ 5 _ _ _ H3)).
  - unfold search_by_name_with_retries. change (Z.to_nat 2) with 2%nat.
    destruct (try_body_same_wire g up name 0 2 0 3 s s eq_refl) as [Hr1 Hw1].
    rewrite H1 in Hr1, Hw1. simpl in Hr1, Hw1.
    destruct (try_body g up name 0 2 s) as [r1 s1'] eqn:H1'. simpl in Hr1, Hw1. subst r1.
    rewrite (retry_loop_step _ _ _ _ _ _ _ _ _ _ (iteration_busy _ _ _ _ _ 5 _ _ _ ltac:(lia) H1' He1)).
    destruct (try_body_same_wire g up name 1 2 1 3 (after_busy name 5 s1') (after_busy name 5 s1))
      as [Hr2 Hw2]; [by rewrite !wire_after_busy, Hw1|].
    rewrite H2 in Hr2, Hw2. simpl in Hr2, Hw2.
    destruct (try_body g up name 1 2 (after_busy name 5 s1')) as [r2 s2'] eqn:H2'.
    simpl in Hr2, Hw2. subst r2.
    rewrite (retry_loop_step _ _ _ _ _ _ _ _ _ _ (iteration_busy _ _ _ _ _ 5 _ _ _ ltac:(lia) H2' He2)).
    by rewrite retry_loop_exhausted.
Qed.

(** ** One attempt, step by step *)

Lemma requests_of_app t1 t2 : requests_of (t1 ++ t2) = requests_of t1 ++ requests_of t2.
Proof.
  induction t1 as [|e t1 IH]; [done|]. destruct e; simpl; by rewrite ?IH.
Qed.

Lemma attempts_in_app t1 t2 : attempts_in (t1 ++ t2) = (attempts_in t1 + attempts_in t2)%nat.
Proof.
  induction t1 as [|e t1 IH]; [done|]. destruct e as [| | |[]| |]; simpl; by rewrite ?IH.
Qed.

Lemma primary_cid_truthy compounds z :
  primary_cid compounds = Some z → z ≠ 0.
Proof.
  unfold primary_cid. destruct compounds as [|c0 ?]; [done|].
  destruct (cid_attr c0) as [[z0|]|]; simpl; try done.
  destruct (Z.eqb_spec z0 0); simpl; [done|]. by intros [= <-].
Qed.

Lemma primary_cid_hit c cs z :
  cid_attr c = Some (Some z) → z ≠ 0 → primary_cid (c :: cs) = Some z.
Proof.
  intros Hc Hz. unfold primary_cid. rewrite Hc. simpl.
  by destruct (Z.eqb_spec z 0).
Qed.

Section Attempt.
Context (g : Globals) (up : Upstream).

Lemma resolve_run name s :
  resolve g up name s =
  let s1 := s ++ [EvLog INFO "   -> Attempt 1: Searching in 'Compound' domain";
                  EvRequest (GetCompounds name (proxies g))] in
  match get_compounds up (wire s) name (proxies g) with
  | inl e => (inl e, s1)
  | inr compounds =>
      match primary_cid compounds with
      | Some cid => (inr (Some cid), s1)
      | None =>
          let s2 := s1 ++ [EvLog WARNING "   -> Search in 'Compound' failed. Falling back to 'Substance' domain...";
                           EvRequest (GetCids name (proxies g))] in
          match get_cids up (wire s ++ [EvRequest (GetCompounds name (proxies g))]) name (proxies g) with
          | inl e => (inl e, s2)
          | inr cids_from_substance => (inr (substance_cid None cids_from_substance), s2)
          end
      end
  end.
Proof.
  unfold resolve. py_run. rewrite wire_log, <- !app_assoc. simpl.
  destruct (get_compounds up (wire s) name (proxies g)) as [e|compounds]; [done|].
  destruct (primary_cid compounds) as [cid|] eqn:Hcid.
  - apply primary_cid_truthy in Hcid as Hz. simpl.
    by destruct (Z.eqb_spec cid 0).
  - simpl. rewrite wire_log, wire_app, <- !app_assoc. simpl.
    by destruct (get_cids up _ name (proxies g)).
Qed.

Lemma fetch_record_run name cid s :
  fetch_record g up name cid s =
  let s1 := s ++ [EvLog INFO ("CID found for '" +:+ name +:+ "': " +:+ pretty cid +:+ ". Fetching full record...");
                  EvRequest (FromCid cid (proxies g))] in
  match from_cid up (wire s) cid (proxies g) with
  | inl e => (inl e, s1)
  | inr None => (inr (fetch_error name cid), s1)
  | inr (Some c) =>
      match to_dict c with
      | inl e => (inr (fetch_error name cid),
                  s1 ++ [EvLog ERROR ("Could not convert compound to dictionary: " +:+ str_of e)])
      | inr props =>
          (inr (<["search_term" := VStr name]>
                  (list_to_map ((λ key, (key, default VNone (props !! key))) <$> keys_to_ensure))), s1)
      end
  end.
Proof.
  unfold fetch_record, compound_to_dict. py_run. rewrite wire_log, <- !app_assoc. simpl.
  destruct (from_cid up (wire s) cid (proxies g)) as [e|[c|]]; [done| |done].
  destruct (to_dict c); [|done]. simpl. by rewrite <- !app_assoc.
Qed.

Lemma try_body_run name attempt max_retries s :
  try_body g up name attempt max_retries s =
  let s0 := s ++ [EvLog INFO ("Searching (" +:+ CONNECTION_TYPE g +:+ "): '" +:+ name +:+ "' (Attempt " +:+ pretty (attempt + 1) +:+ "/" +:+ pretty max_retries +:+ ")...")] in
  match resolve g up name s0 with
  | (inl e, s1) => (inl e, s1)
  | (inr cid, s1) =>
      if truthy_cid cid then fetch_record g up name (default 0 cid) s1
      else (inr (not_found name),
            s1 ++ [EvLog WARNING ("No valid CID found for '" +:+ name +:+ "' in any domain.")])
  end.
Proof.
  unfold try_body, no_valid_cid. py_run.
  destruct (resolve g up name _) as [[e|[cid|]] s1]; [done| |done].
  simpl. by destruct (cid =? 0).
Qed.
End Attempt.

Section Resolution.
Context (g : Globals) (up : Upstream).

(** Whatever the fetch answers, it is one request, and the last of its
    attempt. *)
Lemma fetch_record_requests name cid s :
  ∃ t, (fetch_record g up name cid s).2 = s ++ t ∧
       requests_of t = [FromCid cid (proxies g)].
Proof.
  rewrite fetch_record_run. cbn zeta.
  destruct (from_cid up (wire s) cid (proxies g)) as [e|[c|]]; [by eexists| |by eexists].
  destruct (to_dict c); [|by eexists].
  eexists. simpl. by rewrite <- app_assoc.
Qed.

Lemma resolve_primary_hit name s s0 c cs z :
  get_compounds up (wire s) name (proxies g) = inr (c :: cs) →
  cid_attr c = Some (Some z) → z ≠ 0 →
  wire s0 = wire s →
  resolve g up name s0 =
    (inr (Some z),
     s0 ++ [EvLog INFO "   -> Attempt 1: Searching in 'Compound' domain";
            EvRequest (GetCompounds name (proxies g))]).
Proof.
  intros Hprimary Hc Hz Hs0. rewrite resolve_run, Hs0, Hprimary. cbn zeta.
  by rewrite (primary_cid_hit c cs z Hc Hz).
Qed.

(** C5.  When the primary (compound-domain) search answers with a first hit
    whose identifier is populated (present, not [None], not zero), the
    resolution returns that identifier after that single request, and the
    whole attempt issues exactly two requests: the primary search and the
    fetch of that identifier.  No substance-domain request is issued. *)
Theorem primary_hit_skips_substance name attempt max_retries s c cs z :
  get_compounds up (wire s) name (proxies g) = inr (c :: cs) →
  cid_attr c = Some (Some z) → z ≠ 0 →
  resolve g up name s =
    (inr (Some z),
     s ++ [EvLog INFO "   -> Attempt 1: Searching in 'Compound' domain";
           EvRequest (GetCompounds name (proxies g))]) ∧
  ∃ t, (try_body g up name attempt max_retries s).2 = s ++ t ∧
       requests_of t = [GetCompounds name (proxies g); FromCid z (proxies g)].
Proof.
  intros Hprimary Hc Hz. split; [by apply (resolve_primary_hit name s s c cs z)|].
  rewrite try_body_run. cbn zeta.
  rewrite (resolve_primary_hit name s _ c cs z Hprimary Hc Hz) by apply wire_log.
  simpl. destruct (Z.eqb_spec z 0) as [?|_]; [done|]. simpl.
  match goal with
  | |- context [fetch_record g up name z ?s1] =>
      destruct (fetch_record_requests name z s1) as (t & -> & Ht)
  end.
  eexists. rewrite <- !app_assoc. split; [reflexivity|].
  simpl. by rewrite Ht.
Qed.

(** C6, as the code has it.  When the primary search yields no identifier,
    the substance domain is always queried next.  What it resolves is decided
    by the FIRST entry of the answer alone, whatever the entries after it:
    when the first entry has a non-empty identifier list whose first
    identifier is not zero, that identifier is the resolved one and the
    attempt goes on to fetch it; in every other case (an empty answer, a
    first entry without an identifier list or with an empty one, or with a
    first identifier 0) nothing is resolved, nothing is fetched and the
    attempt returns not-found, even when a later entry has an identifier. *)
Theorem substance_first_entry_resolves name attempt max_retries s compounds :
  get_compounds up (wire s) name (proxies g) = inr compounds →
  primary_cid compounds = None →
  (∃ t, (resolve g up name s).2 = s ++ t ∧
        requests_of t = [GetCompounds name (proxies g); GetCids name (proxies g)]) ∧
  (∀ first_result rest z zs,
    get_cids up (wire s ++ [EvRequest (GetCompounds name (proxies g))]) name (proxies g)
      = inr (first_result :: rest) →
    CID first_result = Some (z :: zs) → z ≠ 0 →
    (resolve g up name s).1 = inr (Some z) ∧
    ∃ t, (try_body g up name attempt max_retries s).2 = s ++ t ∧
         requests_of t = [GetCompounds name (proxies g); GetCids name (proxies g);
                          FromCid z (proxies g)]) ∧
  (∀ entries,
    get_cids up (wire s ++ [EvRequest (GetCompounds name (proxies g))]) name (proxies g)
      = inr entries →
    (∀ first_result rest z zs,
       entries = first_result :: rest → CID first_result = Some (z :: zs) → z = 0) →
    (∀ cid, (resolve g up name s).1 = inr (Some cid) → cid = 0) ∧
    ∃ t, try_body g up name attempt max_retries s = (inr (not_found name), s ++ t) ∧
         requests_of t = [GetCompounds name (proxies g); GetCids name (proxies g)]).
Proof.
  intros Hprimary Hnone. split; [|split].
  - rewrite resolve_run, Hprimary, Hnone. cbn zeta.
    destruct (get_cids up _ name (proxies g)); simpl; eexists; rewrite <- app_assoc; by split.
  - intros first_result rest z zs Hsecondary Hfirst Hz. split.
    + rewrite resolve_run, Hprimary, Hnone. cbn zeta. rewrite Hsecondary. simpl.
      by rewrite Hfirst.
    + rewrite try_body_run. cbn zeta. rewrite resolve_run, wire_log, Hprimary, Hnone.
      cbn zeta. rewrite Hsecondary. simpl. rewrite Hfirst. simpl.
      destruct (Z.eqb_spec z 0) as [?|_]; [done|]. simpl.
      match goal with
      | |- context [fetch_record g up name z ?s1] =>
          destruct (fetch_record_requests name z s1) as (t & -> & Ht)
      end.
      eexists. rewrite <- !app_assoc. split; [reflexivity|].
      simpl. by rewrite Ht.
  - intros entries Hsecondary Hfirst.
    assert (Hfalsy : truthy_cid (substance_cid None entries) = false).
    { destruct entries as [|first_result rest]; [done|]. simpl.
      destruct (CID first_result) as [[|z zs]|] eqn:Hcid; try done.
      simpl. by rewrite (Hfirst first_result rest z zs eq_refl Hcid). }
    split.
    + rewrite resolve_run, Hprimary, Hnone. cbn zeta. rewrite Hsecondary. simpl.
      intros cid [= Hcid]. rewrite Hcid in Hfalsy. simpl in Hfalsy.
      by destruct (Z.eqb_spec cid 0).
    + rewrite try_body_run. cbn zeta. rewrite resolve_run, wire_log, Hprimary, Hnone.
      cbn zeta. rewrite Hsecondary, Hfalsy.
      eexists. rewrite <- !app_assoc. by split.
Qed.
End Resolution.

Section Retry.
Context (g : Globals) (up : Upstream).

Lemma resolve_attempts name s :
  ∃ t, (resolve g up name s).2 = s ++ t ∧ attempts_in t = 1%nat.
Proof.
  rewrite resolve_run. cbn zeta.
  destruct (get_compounds up (wire s) name (proxies g)) as [e|compounds]; [by eexists|].
  destruct (primary_cid compounds); [by eexists|].
  destruct (get_cids up _ name (proxies g)); simpl; eexists; rewrite <- app_assoc; by split.
Qed.

Lemma fetch_record_attempts name cid s :
  ∃ t, (fetch_record g up name cid s).2 = s ++ t ∧ attempts_in t = 0%nat.
Proof.
  rewrite fetch_record_run. cbn zeta.
  destruct (from_cid up (wire s) cid (proxies g)) as [e|[c|]]; [by eexists| |by eexists].
  destruct (to_dict c); [|by eexists].
  eexists. simpl. by rewrite <- app_assoc.
Qed.

Lemma try_body_attempts name attempt max_retries s :
  ∃ t, (try_body g up name attempt max_retries s).2 = s ++ t ∧ attempts_in t = 1%nat.
Proof.
  rewrite try_body_run. cbn zeta.
  match goal with
  | |- context [resolve g up name ?s0] =>
      destruct (resolve_attempts name s0) as (t1 & Ht1 & Hn1);
      destruct (resolve g up name s0) as [[e|cid] s1]
  end; simpl in Ht1; subst s1.
  - eexists. rewrite <- app_assoc. split; [reflexivity|]. by rewrite attempts_in_app, Hn1.
  - destruct (truthy_cid cid).
    + match goal with
      | |- context [fetch_record g up name ?c ?s1] =>
          destruct (fetch_record_attempts name c s1) as (t2 & -> & Hn2)
      end.
      eexists. rewrite <- !app_assoc. split; [reflexivity|].
      by rewrite !attempts_in_app, Hn1, Hn2.
    + eexists. simpl. rewrite <- !app_assoc. split; [reflexivity|].
      by rewrite !attempts_in_app, Hn1.
Qed.

Lemma iteration_attempts name attempt max_retries retry_delay s :
  0 ≤ retry_delay →
  ∃ f t, iteration g up name attempt max_retries retry_delay s = (inr f, s ++ t) ∧
         attempts_in t = 1%nat.
Proof.
  intros Hdelay. destruct (try_body_attempts name attempt max_retries s) as (t & Ht & Hn).
  destruct (try_body g up name attempt max_retries s) as [[e|d] s1] eqn:Hbody;
    simpl in Ht; subst s1.
  - destruct (transient e) eqn:He.
    + rewrite (iteration_busy _ _ _ _ _ _ _ _ _ Hdelay Hbody He).
      eexists _, _. unfold after_busy. rewrite <- app_assoc. split; [reflexivity|].
      by rewrite attempts_in_app, Hn.
    + destruct (iteration_failed _ _ _ _ _ retry_delay _ _ _ Hbody He) as (message & text & ->).
      eexists _, _. rewrite <- app_assoc. split; [reflexivity|].
      by rewrite attempts_in_app, Hn.
  - rewrite (iteration_returned _ _ _ _ _ retry_delay _ _ _ Hbody). by eexists _, _.
Qed.

Lemma retry_loop_attempts name max_retries retry_delay left attempt s :
  0 ≤ retry_delay →
  ∃ t, (retry_loop g up name max_retries retry_delay left attempt s).2 = s ++ t ∧
       (attempts_in t ≤ left)%nat.
Proof.
  intros Hdelay. revert attempt s. induction left as [|left IH]; intros attempt s.
  - rewrite retry_loop_exhausted. eexists. split; [reflexivity|]. simpl. lia.
  - destruct (iteration_attempts name attempt max_retries retry_delay s Hdelay)
      as (f & t & Hiter & Hn).
    rewrite (retry_loop_step _ _ _ _ _ _ _ _ _ _ Hiter). destruct f as [d|].
    + exists t. split; [done|lia].
    + destruct (IH (attempt + 1) (s ++ t)) as (t' & -> & Hn').
      exists (t ++ t'). rewrite app_assoc, attempts_in_app. split; [done|lia].
Qed.


(** C3, as the code has it.  After a successful resolution the fetch sits in
    the same [try] as the resolution.  A fetch that raises anything but a
    transient error, or that returns nothing usable ([None], or a compound
    whose [to_dict()] raises), ends the lookup at once with a failure.  A
    fetch that raises a transient error is retried like a resolution: the
    loop logs, sleeps and runs the next attempt, if one is left. *)
Theorem fetch_failure_reporting name max_retries retry_delay left attempt s cid s1 :
  0 ≤ retry_delay →
  resolve g up name (attempt_opened g name attempt max_retries s) = (inr (Some cid), s1) →
  cid ≠ 0 →
  match from_cid up (wire s1) cid (proxies g) with
  | inl e =>
      if transient e then
        retry_loop g up name max_retries retry_delay (S left) attempt s =
        retry_loop g up name max_retries retry_delay left (attempt + 1)
                   (after_busy name retry_delay (fetch_issued g name cid s1))
      else
        ∃ message text,
          retry_loop g up name max_retries retry_delay (S left) attempt s =
            (inr (failure message name), fetch_issued g name cid s1 ++ [EvLog ERROR text])
  | inr None =>
      retry_loop g up name max_retries retry_delay (S left) attempt s =
        (inr (fetch_error name cid), fetch_issued g name cid s1)
  | inr (Some c) =>
      match to_dict c with
      | inl e =>
          retry_loop g up name max_retries retry_delay (S left) attempt s =
            (inr (fetch_error name cid),
             fetch_issued g name cid s1 ++
               [EvLog ERROR ("Could not convert compound to dictionary: " +:+ str_of e)])
      | inr props =>
          ∃ d, retry_loop g up name max_retries retry_delay (S left) attempt s =
                 (inr d, fetch_issued g name cid s1) ∧ success_shape name d
      end
  end.
Proof.
  intros Hdelay Hres Hcid.
  assert (Hbody : try_body g up name attempt max_retries s = fetch_record g up name cid s1).
  { rewrite try_body_run. cbn zeta. unfold attempt_opened in Hres. rewrite Hres. simpl.
    by destruct (Z.eqb_spec cid 0). }
  rewrite fetch_record_run in Hbody. cbn zeta in Hbody. fold (fetch_issued g name cid s1) in Hbody.
  destruct (from_cid up (wire s1) cid (proxies g)) as [e|[c|]].
  - destruct (transient e) eqn:He.
    + by rewrite (retry_loop_step _ _ _ _ _ _ _ _ _ _
                    (iteration_busy _ _ _ _ _ _ _ _ _ Hdelay Hbody He)).
    + destruct (iteration_failed _ _ _ _ _ retry_delay _ _ _ Hbody He)
        as (message & text & Hiter).
      exists message, text. by rewrite (retry_loop_step _ _ _ _ _ _ _ _ _ _ Hiter).
  - destruct (to_dict c) as [e|props].
    + by rewrite (retry_loop_step _ _ _ _ _ _ _ _ _ _
                    (iteration_returned _ _ _ _ _ retry_delay _ _ _ Hbody)).
    + eexists. rewrite (retry_loop_step _ _ _ _ _ _ _ _ _ _
                          (iteration_returned _ _ _ _ _ retry_delay _ _ _ Hbody)).
      split; [reflexivity|apply projected_success].
  - by rewrite (retry_loop_step _ _ _ _ _ _ _ _ _ _
                  (iteration_returned _ _ _ _ _ retry_delay _ _ _ Hbody)).
Qed.
End Retry.

(** ** The two shapes of an outcome *)

Lemma projected_record name (props : dict) :
  record_of name props
    (<["search_term" := VStr name]>
       (list_to_map ((λ key, (key, default VNone (props !! key))) <$> keys_to_ensure))).
Proof.
  unfold record_of, keys_to_ensure. cbn [fmap list_fmap list_to_map foldr curry fst snd].
  split; [|split; [|split]].
  - intros key Hkey.
    repeat (apply elem_of_cons in Hkey as [->|Hkey]); [..|by apply elem_of_nil in Hkey];
      by simplify_map_eq.
  - rewrite !dom_insert_L. cbn. set_solver.
  - by simplify_map_eq.
  - by simplify_map_eq.
Qed.

Section Origin.
Context (g : Globals) (up : Upstream).

Lemma fetch_record_origin name cid :
  returns (λ r, ∀ d, r = inr d → failure_shape name d ∨ fetched_record g up name d)
          (fetch_record g up name cid).
Proof.
  intros s d. rewrite fetch_record_run. cbn zeta.
  destruct (from_cid up (wire s) cid (proxies g)) as [e|[c|]] eqn:Hfetch; simpl; [done| |].
  - destruct (to_dict c) as [e|props] eqn:Hdict; simpl; intros [= <-].
    + left. by eexists.
    + right. exists (wire s), cid, c, props. split; [done|]. split; [done|].
      apply projected_record.
  - intros [= <-]. left. by eexists.
Qed.

Lemma try_body_origin name attempt max_retries :
  returns (λ r, ∀ d, r = inr d → failure_shape name d ∨ fetched_record g up name d)
          (try_body g up name attempt max_retries).
Proof.
  intros s d. rewrite try_body_run. cbn zeta.
  destruct (resolve g up name _) as [[e|cid] s1]; [done|].
  destruct (truthy_cid cid); [apply fetch_record_origin|].
  simpl. intros [= <-]. left. by eexists.
Qed.

Lemma retry_loop_origin name max_retries retry_delay left attempt :
  returns (λ r, ∀ d, r = inr d → failure_shape name d ∨ fetched_record g up name d)
          (retry_loop g up name max_retries retry_delay left attempt).
Proof.
  revert attempt. induction left as [|left IH]; intros attempt s d.
  - rewrite retry_loop_exhausted. simpl. intros [= <-]. left. by eexists.
  - cbn [retry_loop]. unfold iteration, try_except, mbind at 1 2, Py_bind.
    pose proof (try_body_origin name attempt max_retries s) as Hbody.
    destruct (try_body g up name attempt max_retries s) as [[e|d0] s1]; simpl in Hbody.
    + unfold handler, time_sleep.
      destruct e as [msg|msg|msg]; [destruct (server_busy msg); [destruct (retry_delay <? 0)|]|..];
        py_run; try done; try (intros [= <-]; left; by eexists).
      apply IH.
    + py_run. intros [= <-]. by apply Hbody.
Qed.
End Origin.

(** C9.  For a non-negative retry delay the lookup of a name always returns,
    and what it returns is exactly one of two things.  Either it is the
    two-key failure with an [error] text and [compound_name] the queried
    name; or it is the record of a compound that the upstream returned: the
    seven canonical keys, each with the value the upstream properties have
    for it or [None] where they have none, plus [search_term] the queried
    name, and no [error].  Every outcome of a batch is of that kind.  And a
    fetch that returns a compound with properties always gives that record,
    however many of the seven the properties lack: a missing field never
    fails the fetch. *)
Theorem outcome_has_one_shape g up name max_retries retry_delay s :
  0 ≤ retry_delay →
  (∃ d s', search_by_name_with_retries g up name max_retries retry_delay s = (inr d, s') ∧
           outcome_shape name d ∧
           (failure_shape name d ∨ fetched_record g up name d)) ∧
  (∀ names s0, ∃ results s0',
    search_compounds_by_name g up names s0 = (inr results, s0') ∧
    Forall2 (λ name d, outcome_shape name d ∧
                       (failure_shape name d ∨ fetched_record g up name d)) names results) ∧
  (∀ left attempt cid s1 c props,
    resolve g up name (attempt_opened g name attempt max_retries s) = (inr (Some cid), s1) →
    cid ≠ 0 →
    from_cid up (wire s1) cid (proxies g) = inr (Some c) →
    to_dict c = inr props →
    ∃ d, retry_loop g up name max_retries retry_delay (S left) attempt s
           = (inr d, fetch_issued g name cid s1) ∧
         record_of name props d).
Proof.
  intros Hdelay. split; [|split].
  - destruct (search_by_name_returns g up name max_retries retry_delay s Hdelay)
      as (d & s' & Hrun & Hshape).
    exists d, s'. split; [done|]. split; [done|].
    apply (retry_loop_origin g up name max_retries retry_delay (Z.to_nat max_retries) 0 s).
    unfold search_by_name_with_retries in Hrun. by rewrite Hrun.
  - intros names s0.
    destruct (search_compounds_by_name_runs g up names s0) as (results & s0' & Hrun & Hall).
    exists results, s0'. split; [done|].
    eapply Forall2_impl; [exact Hall|]. intros name' d [[s1 Hd] Hshape]. split; [done|].
    by apply (retry_loop_origin g up name' 3 5 (Z.to_nat 3) 0 s1).
  - intros left attempt cid s1 c props Hres Hcid Hfetch Hdict.
    assert (Hbody : try_body g up name attempt max_retries s = fetch_record g up name cid s1).
    { rewrite try_body_run. cbn zeta. unfold attempt_opened in Hres. rewrite Hres. simpl.
      by destruct (Z.eqb_spec cid 0). }
    rewrite fetch_record_run, Hfetch, Hdict in Hbody. cbn zeta in Hbody.
    eexists. rewrite (retry_loop_step _ _ _ _ _ _ _ _ _ _
                        (iteration_returned _ _ _ _ _ retry_delay _ _ _ Hbody)).
    split; [reflexivity|apply projected_record].
Qed.

(** ** The theorems at concrete inputs *)

Lemma busy_twice_then_success_witness :
  search_by_name_with_retries Stub.direct (Stub.busy_primary 2) "Aspirin" 3 5 []
    = (inr Stub.aspirin_record, Stub.busy_trace3) ∧
  (search_by_name_with_retries Stub.direct (Stub.busy_primary 2) "Aspirin" 2 5 []).1
    = inr (transient_failure "Aspirin" 2) ∧
  transient_failure "Aspirin" 2 ≠ not_found "Aspirin".
Proof.
  apply (busy_twice_then_success Stub.direct (Stub.busy_primary 2) "Aspirin" []
           Stub.busy Stub.busy_trace1 Stub.busy Stub.busy_trace2);
    vm_compute; reflexivity.
Defined.

Lemma fetch_failure_reporting_witness :
  retry_loop Stub.direct Stub.busy_fetch "Aspirin" 3 5 3 0 [] =
  retry_loop Stub.direct Stub.busy_fetch "Aspirin" 3 5 2 1
    (after_busy "Aspirin" 5 (fetch_issued Stub.direct "Aspirin" 2244 Stub.aspirin_resolved)).
Proof.
  apply (fetch_failure_reporting Stub.direct Stub.busy_fetch "Aspirin" 3 5 2 0 []
           2244 Stub.aspirin_resolved).
  - lia.
  - vm_compute; reflexivity.
  - lia.
Defined.


Lemma primary_hit_skips_substance_witness :
  resolve Stub.direct Stub.plain "Aspirin" []
    = (inr (Some 2244),
       [EvLog INFO "   -> Attempt 1: Searching in 'Compound' domain";
        EvRequest (GetCompounds "Aspirin" None)]) ∧
  ∃ t, (try_body Stub.direct Stub.plain "Aspirin" 0 3 []).2 = [] ++ t ∧
       requests_of t = [GetCompounds "Aspirin" None; FromCid 2244 None].
Proof.
  apply (primary_hit_skips_substance Stub.direct Stub.plain "Aspirin" 0 3 [] Stub.aspirin [] 2244).
  - reflexivity.
  - reflexivity.
  - lia.
Defined.

Lemma substance_first_entry_resolves_witness :
  (resolve Stub.direct Stub.substance_first "Hydroxocobalamin" []).1 = inr (Some 2244) ∧
  ∃ t, (try_body Stub.direct Stub.substance_first "Hydroxocobalamin" 0 3 []).2 = [] ++ t ∧
       requests_of t = [GetCompounds "Hydroxocobalamin" None; GetCids "Hydroxocobalamin" None;
                        FromCid 2244 None].
Proof.
  apply (proj1 (proj2 (substance_first_entry_resolves Stub.direct Stub.substance_first
                         "Hydroxocobalamin" 0 3 [] [] eq_refl eq_refl))
           {| SID := 12; CID := Some [2244; 2245] |} [ {| SID := 11; CID := None |} ] 2244 [2245]).
  - reflexivity.
  - reflexivity.
  - lia.
Defined.

Lemma proxy_disabled_means_direct_witness :
  ∃ g s',
    startup lower_ascii Stub.plain (Some Stub.off_ini) [] = (inr g, s') ∧
    proxies g = None ∧
    (∃ t, s' = [] ++ t ∧ requests_of t = []) ∧
    ∀ up' names s1, ∃ t,
      (search_compounds_by_name g up' names s1).2 = s1 ++ t ∧
      Forall (uses_proxy None) t.
Proof.
  apply (proxy_disabled_means_direct lower_ascii Stub.plain (Some Stub.off_ini) []). reflexivity.
Defined.

Lemma proxy_check_failure_not_fatal_witness :
  ∃ g t,
    startup lower_ascii Stub.proxy_down (Some Stub.tor_ini) [] = (inr g, [] ++ t) ∧
    (∃ text, EvLog CRITICAL text ∈ t) ∧
    proxies g = Some (configured_proxies lower_ascii Stub.tor_ini) ∧
    ∀ up' names s1, ∃ results s1' t1,
      search_compounds_by_name g up' names s1 = (inr results, s1') ∧
      length results = length names ∧
      s1' = s1 ++ t1 ∧
      Forall (uses_proxy (Some (configured_proxies lower_ascii Stub.tor_ini))) t1.
Proof.
  apply (proxy_check_failure_not_fatal lower_ascii Stub.proxy_down Stub.tor_ini []
           "SOCKSHTTPSConnectionPool: Max retries exceeded").
  - reflexivity.
  - reflexivity.
Defined.

Lemma outcome_has_one_shape_witness :
  ∃ d, retry_loop Stub.direct Stub.plain "Aspirin" 3 5 3 0 []
         = (inr d, fetch_issued Stub.direct "Aspirin" 2244 Stub.aspirin_resolved) ∧
       record_of "Aspirin" Stub.aspirin_props d.
Proof.
  apply (proj2 (proj2 (outcome_has_one_shape Stub.direct Stub.plain "Aspirin" 3 5 [] ltac:(lia)))
           2%nat 0 2244 Stub.aspirin_resolved Stub.aspirin Stub.aspirin_props).
  - vm_compute; reflexivity.
  - lia.
  - reflexivity.
  - reflexivity.
Defined.

(** The scenario of the specification: one name, known in the primary
    domain as 2244. *)
Example aspirin_batch :
  (search_compounds_by_name Stub.direct Stub.plain ["Aspirin"] []).1
    = inr [Stub.aspirin_record] ∧
  Stub.aspirin_record !! "cid" = Some (VInt 2244) ∧
  Stub.aspirin_record !! "search_term" = Some (VStr "Aspirin") ∧
  Stub.aspirin_record !! "iupac_name" = Some VNone ∧
  Stub.aspirin_record !! "error" = None.
Proof. repeat split; vm_compute; reflexivity. Qed.

(** An identifier 0 is falsy: line 129 treats it like no identifier. *)
Example zero_identifier_not_found :
  (resolve Stub.direct Stub.substance_zero "Hydroxocobalamin" []).1 = inr (Some 0) ∧
  (search_by_name_with_retries Stub.direct Stub.substance_zero "Hydroxocobalamin" 3 5 []).1
    = inr (not_found "Hydroxocobalamin").
Proof. split; vm_compute; reflexivity. Qed.

(** ** Where the specification and the code part *)

(** C3 as stated fails.  Against [Stub.busy_fetch] the first attempt for
    "Aspirin" resolves the identifier 2244 and its fetch raises "server
    busy".  The lookup does not report a failure: it sleeps, runs a second
    attempt, fetches 2244 again and returns the record. *)
Lemma fetch_busy_is_retried :
  resolve Stub.direct Stub.busy_fetch "Aspirin" (attempt_opened Stub.direct "Aspirin" 0 3 [])
    = (inr (Some 2244), Stub.aspirin_resolved) ∧
  from_cid Stub.busy_fetch (wire Stub.aspirin_resolved) 2244 None = inl Stub.busy ∧
  ∃ s',
    search_by_name_with_retries Stub.direct Stub.busy_fetch "Aspirin" 3 5 []
      = (inr Stub.aspirin_record, s') ∧
    Stub.aspirin_record !! "error" = None ∧
    requests_of s' = [GetCompounds "Aspirin" None; FromCid 2244 None;
                      GetCompounds "Aspirin" None; FromCid 2244 None] ∧
    EvSleep 5 ∈ s'.
Proof.
  split; [vm_compute; reflexivity|]. split; [vm_compute; reflexivity|].
  eexists. split; [vm_compute; reflexivity|]. split; [vm_compute; reflexivity|].
  split; [vm_compute; reflexivity|].
  apply list_elem_of_In. vm_compute. tauto.
Qed.

(** C6 as stated fails.  Against [Stub.substance_only] the primary search
    finds nothing and the substance search returns two entries, the second
    of which has the identifier list [[2244]].  The resolution looks at the
    first entry only, resolves nothing, and the outcome is not-found. *)
Lemma later_substance_entry_ignored :
  get_compounds Stub.substance_only [] "Hydroxocobalamin" None = inr [] ∧
  get_cids Stub.substance_only [EvRequest (GetCompounds "Hydroxocobalamin" None)]
           "Hydroxocobalamin" None
    = inr [ {| SID := 11; CID := None |}; {| SID := 12; CID := Some [2244] |} ] ∧
  (resolve Stub.direct Stub.substance_only "Hydroxocobalamin" []).1 = inr None ∧
  (search_by_name_with_retries Stub.direct Stub.substance_only "Hydroxocobalamin" 3 5 []).1
    = inr (not_found "Hydroxocobalamin").
Proof. repeat split; vm_compute; reflexivity. Qed.

(** ** Startup, case by case *)

Section StartupRun.
Context (str_lower : string → string) (up : Upstream).

Lemma proxy_check_run proxy_type px s :
  proxy_check up proxy_type px s =
  let s1 := s ++ [EvRequest (TorCheck (Some px))] in
  match tor_check up (wire s) (Some px) with
  | inr text =>
      (inr tt,
       s1 ++ [if py_in "Congratulations. This browser is configured to use Tor." text
              then EvLog INFO ("[" +:+ upper proxy_type +:+ " PROXY CHECK] SUCCESS! Connection through the Tor network verified successfully.")
              else EvLog WARNING ("[" +:+ upper proxy_type +:+ " PROXY CHECK] WARNING: Connection was successful, but the response does not confirm Tor usage.")])
  | inl (RequestException msg) =>
      (inr tt,
       s1 ++ [EvLog CRITICAL ("[" +:+ upper proxy_type +:+ " PROXY CHECK] !! CRITICAL FAILURE !! Could not connect through the proxy. Error: " +:+ msg);
              EvLog CRITICAL ("[" +:+ upper proxy_type +:+ " PROXY CHECK] Please ensure the proxy is running and that the required dependency (e.g., PySocks) is installed.")])
  | inl e => (inl e, s1)
  end.
Proof.
  unfold proxy_check, try_except. py_run.
  destruct (tor_check up (wire s) (Some px)) as [[msg|msg|msg]|text]; simpl; try done.
  - by rewrite <- !app_assoc.
  - by destruct (py_in _ text).
Qed.

(** The startup with the proxy switched on: the effective type [ty] is the
    configured one in lower case when it is one of the four, [socks5h]
    otherwise. *)
Lemma startup_enabled_run cfg s :
  ini_use_proxy cfg = Some true →
  let proxy_type := str_lower (default "socks5h" (ini_proxy_type cfg)) in
  let proxy_host := default "127.0.0.1" (ini_host cfg) in
  let proxy_port := default 9050 (ini_port cfg) in
  let valid := bool_decide (proxy_type ∈ ["socks5h"; "socks5"; "http"; "https"]) in
  let ty := if valid then proxy_type else "socks5h" in
  let s1 := (s ++ (if valid then [] else [invalid_type_line proxy_type]))
              ++ [proxy_enabled_line ty proxy_host proxy_port] in
  startup str_lower up (Some cfg) s =
    match proxy_check up ty (make_proxies ty proxy_host proxy_port) s1 with
    | (inr _, s2) => (inr (proxy_globals ty proxy_host proxy_port), s2)
    | (inl e, s2) => (inl e, s2)
    end.
Proof.
  intros Hon. cbn zeta. unfold startup. py_run. rewrite Hon. simpl.
  destruct (bool_decide _); simpl; rewrite ?app_nil_r;
    by destruct (proxy_check up _ _ _) as [[e|[]] s2].
Qed.
End StartupRun.

Section StartupFacts.
Context (str_lower : string → string) (up : Upstream).

Lemma startup_disabled_run file s :
  use_proxy_setting file = false →
  startup str_lower up file s =
    (inr Stub.direct,
     (s ++ match file with
           | None => [EvLog WARNING "config.ini not found. Creating a new one with default safe values.";
                      EvCreateConfig]
           | Some _ => []
           end)
       ++ [EvLog INFO "[PROXY DISABLED] Using a direct connection. Your real IP will be visible to PubChem."]).
Proof.
  unfold use_proxy_setting, startup. intros Hoff. destruct file as [cfg|]; simpl in Hoff; py_run.
  - by rewrite Hoff, app_nil_r.
  - by rewrite <- !app_assoc.
Qed.

Lemma use_proxy_cases file :
  use_proxy_setting file = false ∨ ∃ cfg, file = Some cfg ∧ ini_use_proxy cfg = Some true.
Proof.
  unfold use_proxy_setting. destruct file as [cfg|]; [|by left]. simpl.
  destruct (ini_use_proxy cfg) as [[]|] eqn:E; [right; by exists cfg|by left..].
Qed.

Lemma effective_type_valid (proxy_type : string) :
  (if bool_decide (proxy_type ∈ ["socks5h"; "socks5"; "http"; "https"]) then proxy_type else "socks5h")
    ∈ ["socks5h"; "socks5"; "http"; "https"].
Proof. case_bool_decide; [done|by left]. Qed.

Lemma make_proxies_lookup ty host port :
  make_proxies ty host port !! "http" = Some (proxy_url ty host port) ∧
  make_proxies ty host port !! "https" = Some (proxy_url ty host port) ∧
  dom (make_proxies ty host port) = {["http"; "https"]}.
Proof.
  unfold make_proxies. split; [by simplify_map_eq|]. split; [by simplify_map_eq|].
  rewrite !dom_insert_L. set_solver.
Qed.

(** X1.  Whenever the startup leaves a proxy mapping, it is well formed: the keys
    are [http] and [https], both map to the same URL, and the scheme of that
    URL is one of the four accepted types. *)
Theorem startup_proxies_well_formed file s g s' px :
  startup str_lower up file s = (inr g, s') →
  proxies g = Some px →
  ∃ ty host port,
    ty ∈ ["socks5h"; "socks5"; "http"; "https"] ∧
    px !! "http" = Some (proxy_url ty host port) ∧
    px !! "https" = Some (proxy_url ty host port) ∧
    dom px = {["http"; "https"]} ∧
    CONNECTION_TYPE g = "Proxy " +:+ upper ty +:+ " (" +:+ proxy_url ty host port +:+ ")".
Proof.
  intros Hrun Hpx. destruct (use_proxy_cases file) as [Hoff|(cfg & -> & Hon)].
  - rewrite (startup_disabled_run file s Hoff) in Hrun. by injection Hrun as <- _.
  - rewrite (startup_enabled_run str_lower up cfg s Hon) in Hrun. cbn zeta in Hrun.
    destruct (proxy_check up _ _ _) as [[e|[]] s2]; [done|]. injection Hrun as <- _.
    simpl in Hpx. injection Hpx as <-.
    eexists _, _, _. split; [apply effective_type_valid|].
    destruct (make_proxies_lookup
                (if bool_decide (str_lower (default "socks5h" (ini_proxy_type cfg)) ∈ ["socks5h"; "socks5"; "http"; "https"])
                 then str_lower (default "socks5h" (ini_proxy_type cfg)) else "socks5h")
                (default "127.0.0.1" (ini_host cfg)) (default 9050 (ini_port cfg)))
      as (? & ? & ?).
    done.
Qed.

(** X2.  The three module-level names agree after every startup that completes. *)
Theorem startup_globals_consistent file s g s' :
  startup str_lower up file s = (inr g, s') →
  USE_PROXY g = use_proxy_setting file ∧
  (USE_PROXY g = true ↔ is_Some (proxies g)) ∧
  (USE_PROXY g = false ↔ CONNECTION_TYPE g = "Direct").
Proof.
  intros Hrun. destruct (use_proxy_cases file) as [Hoff|(cfg & -> & Hon)].
  - rewrite (startup_disabled_run file s Hoff) in Hrun. injection Hrun as <- _.
    rewrite Hoff. simpl. split; [done|]. split; [|done].
    split; [done|]. by intros [? ?].
  - rewrite (startup_enabled_run str_lower up cfg s Hon) in Hrun. cbn zeta in Hrun.
    destruct (proxy_check up _ _ _) as [[e|[]] s2]; [done|]. injection Hrun as <- _.
    unfold use_proxy_setting. simpl. rewrite Hon. simpl. split; [done|].
    split; [by split|done].
Qed.

(** X3.  config.ini is written exactly when it is missing, and a first run then
    behaves like a run on the template: direct, and no request at all. *)
Theorem config_created_only_when_missing file s :
  ∃ t, (startup str_lower up file s).2 = s ++ t ∧
       (EvCreateConfig ∈ t ↔ file = None) ∧
       (file = None →
          (startup str_lower up file s).1 = inr Stub.direct ∧
          (startup str_lower up file s).1 = (startup str_lower up (Some DEFAULT_CONFIG) s).1 ∧
          requests_of t = []).
Proof.
  destruct (use_proxy_cases file) as [Hoff|(cfg & -> & Hon)].
  - destruct file as [cfg|].
    + rewrite (startup_disabled_run (Some cfg) s Hoff). rewrite app_nil_r. eexists.
      split; [reflexivity|]. split; [|done]. split; [|done].
      intros H. by apply list_elem_of_singleton in H.
    + rewrite (startup_disabled_run (Some DEFAULT_CONFIG) s eq_refl).
      rewrite (startup_disabled_run None s eq_refl). rewrite <- app_assoc. eexists.
      split; [reflexivity|]. split; [split; [done|intros _; set_solver]|done].
  - rewrite (startup_enabled_run str_lower up cfg s Hon). cbn zeta. rewrite proxy_check_run. cbn zeta.
    unfold invalid_type_line, proxy_enabled_line.
    destruct (bool_decide (_ ∈ _));
      (destruct (tor_check up _ _) as [[msg|msg|msg]|text]; [..|destruct (py_in _ text)]);
      simpl; rewrite <- !app_assoc; simpl;
      (eexists; split; [reflexivity|]); (split; [|done]); (split; [|done]);
      intros H; repeat (apply elem_of_cons in H as [H|H]; [discriminate H|]);
      by apply elem_of_nil in H.
Qed.

(** X4.  With the proxy switched on the startup issues exactly one request, the
    check, and sends it through the proxy it configures.  A type that
    [str.lower()] turns into one of the four is used in that lower-cased form
    and no ERROR is logged; any other type is replaced by [socks5h] and the
    first line logged says so.  This holds whatever [str.lower()] does
    to the text: it is a parameter. *)
Theorem startup_checks_once_through_proxy cfg s :
  ini_use_proxy cfg = Some true →
  let proxy_type := str_lower (default "socks5h" (ini_proxy_type cfg)) in
  let proxy_host := default "127.0.0.1" (ini_host cfg) in
  let proxy_port := default 9050 (ini_port cfg) in
  ∃ t, (startup str_lower up (Some cfg) s).2 = s ++ t ∧
    (proxy_type ∈ ["socks5h"; "socks5"; "http"; "https"] →
       requests_of t = [TorCheck (Some (make_proxies proxy_type proxy_host proxy_port))] ∧
       List.filter is_error_line t = []) ∧
    (proxy_type ∉ ["socks5h"; "socks5"; "http"; "https"] →
       requests_of t = [TorCheck (Some (make_proxies "socks5h" proxy_host proxy_port))] ∧
       head t = Some (invalid_type_line proxy_type)).
Proof.
  intros Hon. cbn zeta. rewrite (startup_enabled_run str_lower up cfg s Hon). cbn zeta.
  rewrite proxy_check_run. cbn zeta. unfold invalid_type_line, proxy_enabled_line.
  case_bool_decide as Hvalid;
    (destruct (tor_check up _ _) as [[msg|msg|msg]|text]; [..|destruct (py_in _ text)]);
    simpl; rewrite <- !app_assoc; simpl;
    (eexists; split; [reflexivity|]); split; intros Hty; done.
Qed.

(** X5.  Only a [RequestException] of the check is caught: any other exception it
    raises leaves the startup as that exception, after the single request
    and without a CRITICAL line. *)
Theorem check_crash_aborts_startup cfg s e :
  ini_use_proxy cfg = Some true →
  tor_check up (wire s) (Some (configured_proxies str_lower cfg)) = inl e →
  (∀ msg, e ≠ RequestException msg) →
  ∃ t, startup str_lower up (Some cfg) s = (inl e, s ++ t) ∧
       requests_of t = [TorCheck (Some (configured_proxies str_lower cfg))] ∧
       List.filter is_critical_line t = [].
Proof.
  intros Hon Hcheck He. rewrite (startup_enabled_run str_lower up cfg s Hon). cbn zeta.
  rewrite proxy_check_run. cbn zeta. unfold configured_proxies in *.
  unfold invalid_type_line, proxy_enabled_line.
  destruct (bool_decide (_ ∈ _)); simpl; rewrite ?app_nil_r, !wire_log, Hcheck;
    (destruct e as [msg|msg|msg]; [|by destruct (He msg)|]);
    rewrite <- !app_assoc; (eexists; split; [reflexivity|by split]).
Qed.

(** X6.  A check that gets an answer never stops the startup: the last line is
    INFO when the page confirms Tor and WARNING when it does not, nothing
    CRITICAL is logged, and the configured proxies are kept either way. *)
Theorem check_answer_never_fatal cfg s text :
  ini_use_proxy cfg = Some true →
  tor_check up (wire s) (Some (configured_proxies str_lower cfg)) = inr text →
  ∃ g t msg,
    startup str_lower up (Some cfg) s = (inr g, s ++ t) ∧
    last t = Some (EvLog (if py_in "Congratulations. This browser is configured to use Tor." text
                          then INFO else WARNING) msg) ∧
    proxies g = Some (configured_proxies str_lower cfg) ∧
    List.filter is_critical_line t = [].
Proof.
  intros Hon Hcheck. rewrite (startup_enabled_run str_lower up cfg s Hon). cbn zeta.
  rewrite proxy_check_run. cbn zeta. unfold configured_proxies in *.
  unfold invalid_type_line, proxy_enabled_line.
  destruct (bool_decide (_ ∈ _)); simpl; rewrite ?app_nil_r, !wire_log, Hcheck;
    destruct (py_in _ text); rewrite <- !app_assoc; simpl;
    (eexists _, _, _; split; [reflexivity|by split]).
Qed.
End StartupFacts.

(** ** Budgets of a lookup *)

Lemma sleeps_of_app t1 t2 : sleeps_of (t1 ++ t2) = sleeps_of t1 ++ sleeps_of t2.
Proof.
  induction t1 as [|e t1 IH]; [done|]. destruct e; simpl; by rewrite ?IH.
Qed.

Section Budgets.
Context (g : Globals) (up : Upstream).

Lemma fetch_record_trace name cid s :
  ∃ t, (fetch_record g up name cid s).2 = s ++ t ∧
       requests_of t = [FromCid cid (proxies g)] ∧ sleeps_of t = [].
Proof.
  rewrite fetch_record_run. cbn zeta.
  destruct (from_cid up (wire s) cid (proxies g)) as [e|[c|]]; [by eexists| |by eexists].
  destruct (to_dict c); [|by eexists].
  eexists. simpl. by rewrite <- app_assoc.
Qed.

Lemma try_body_trace name attempt max_retries s :
  ∃ t, (try_body g up name attempt max_retries s).2 = s ++ t ∧
       attempt_requests (proxies g) name (requests_of t) ∧
       sleeps_of t = [].
Proof.
  rewrite try_body_run. cbn zeta. rewrite resolve_run. cbn zeta. rewrite wire_log.
  destruct (get_compounds up (wire s) name (proxies g)) as [e|compounds].
  { eexists. rewrite <- app_assoc. split; [reflexivity|]. split; [by left|done]. }
  destruct (primary_cid compounds) as [cid|] eqn:Hcid.
  - apply primary_cid_truthy in Hcid as Hz. simpl.
    destruct (Z.eqb_spec cid 0) as [?|_]; [done|]. simpl.
    match goal with
    | |- context [fetch_record g up name cid ?s1] =>
        destruct (fetch_record_trace name cid s1) as (t & -> & Hreq & Hsleep)
    end.
    eexists. rewrite <- !app_assoc. split; [reflexivity|].
    rewrite !requests_of_app, !sleeps_of_app, Hreq, Hsleep. simpl.
    split; [|done]. right; right. exists cid. split; [done|by left].
  - cbn zeta. destruct (get_cids up _ name (proxies g)) as [e|entries].
    { eexists. rewrite <- !app_assoc. split; [reflexivity|]. split; [right; by left|done]. }
    destruct (substance_cid None entries) as [cid|]; simpl.
    + destruct (Z.eqb_spec cid 0) as [?|Hz]; simpl.
      { eexists. rewrite <- !app_assoc. split; [reflexivity|]. split; [right; by left|done]. }
      match goal with
      | |- context [fetch_record g up name cid ?s1] =>
          destruct (fetch_record_trace name cid s1) as (t & -> & Hreq & Hsleep)
      end.
      eexists. rewrite <- !app_assoc. split; [reflexivity|].
      rewrite !requests_of_app, !sleeps_of_app, Hreq, Hsleep. simpl.
      split; [|done]. right; right. exists cid. split; [done|by right].
    + eexists. rewrite <- !app_assoc. split; [reflexivity|]. split; [right; by left|done].
Qed.

(** X8.  One attempt: the primary search comes first, the fetch last, only a
    non-zero identifier is ever fetched, every search is for [name], and the
    attempt itself never sleeps. *)
Theorem attempt_requests_shape name attempt max_retries s :
  ∃ t, (try_body g up name attempt max_retries s).2 = s ++ t ∧
       attempt_requests (proxies g) name (requests_of t) ∧
       sleeps_of t = [].
Proof. apply try_body_trace. Qed.

Lemma attempt_requests_length px name rs :
  attempt_requests px name rs → (1 ≤ length rs ≤ 3)%nat.
Proof. intros [-> | [-> | (cid & _ & [-> | ->])]]; simpl; lia. Qed.

Lemma iteration_trace name attempt max_retries retry_delay s :
  0 ≤ retry_delay →
  ∃ f t, iteration g up name attempt max_retries retry_delay s = (inr f, s ++ t) ∧
         (1 ≤ length (requests_of t) ≤ 3)%nat ∧
         sleeps_of t = match f with Continue => [retry_delay] | Return _ => [] end.
Proof.
  intros Hdelay.
  destruct (try_body_trace name attempt max_retries s) as (t & Ht & Hreq & Hsleep).
  apply attempt_requests_length in Hreq.
  destruct (try_body g up name attempt max_retries s) as [[e|d] s1] eqn:Hbody;
    simpl in Ht; subst s1.
  - destruct (transient e) eqn:He.
    + rewrite (iteration_busy _ _ _ _ _ _ _ _ _ Hdelay Hbody He).
      eexists _, _. unfold after_busy. rewrite <- app_assoc. split; [reflexivity|].
      rewrite requests_of_app, sleeps_of_app, Hsleep. simpl. rewrite app_nil_r. by split.
    + destruct (iteration_failed _ _ _ _ _ retry_delay _ _ _ Hbody He) as (message & text & ->).
      eexists _, _. rewrite <- app_assoc. split; [reflexivity|].
      rewrite requests_of_app, sleeps_of_app, Hsleep. simpl. rewrite app_nil_r. by split.
  - rewrite (iteration_returned _ _ _ _ _ retry_delay _ _ _ Hbody). by eexists _, _.
Qed.

Lemma retry_loop_budget name max_retries retry_delay left attempt s :
  0 ≤ retry_delay →
  ∃ t k, (retry_loop g up name max_retries retry_delay left attempt s).2 = s ++ t ∧
         (length (requests_of t) ≤ 3 * left)%nat ∧
         (0 < left → 1 ≤ length (requests_of t))%nat ∧
         (k ≤ left)%nat ∧ sleeps_of t = replicate k retry_delay.
Proof.
  intros Hdelay. revert attempt s. induction left as [|left IH]; intros attempt s.
  - rewrite retry_loop_exhausted. eexists _, 0%nat. split; [reflexivity|]. simpl.
    repeat split; lia.
  - destruct (iteration_trace name attempt max_retries retry_delay s Hdelay)
      as (f & t & Hiter & Hreq & Hsleep).
    rewrite (retry_loop_step _ _ _ _ _ _ _ _ _ _ Hiter). destruct f as [d|].
    + exists t, 0%nat. simpl. repeat split; try done; lia.
    + destruct (IH (attempt + 1) (s ++ t)) as (t' & k & -> & Hreq' & _ & Hk & Hsleep').
      exists (t ++ t'), (S k). rewrite app_assoc, requests_of_app, sleeps_of_app, length_app.
      rewrite Hsleep, Hsleep'. simpl. repeat split; try done; lia.
Qed.

Lemma search_by_name_budget name max_retries retry_delay s :
  0 ≤ retry_delay →
  ∃ t k, (search_by_name_with_retries g up name max_retries retry_delay s).2 = s ++ t ∧
         (length (requests_of t) ≤ 3 * Z.to_nat max_retries)%nat ∧
         (0 < max_retries → (1 ≤ length (requests_of t))%nat) ∧
         (k ≤ Z.to_nat max_retries)%nat ∧ sleeps_of t = replicate k retry_delay.
Proof.
  intros Hdelay.
  destruct (retry_loop_budget name max_retries retry_delay (Z.to_nat max_retries) 0 s Hdelay)
    as (t & k & Ht & Hreq & Hone & Hk & Hsleep).
  exists t, k. repeat split; try done. intros ?. apply Hone. lia.
Qed.

(** X9.  A lookup with a budget of [max_retries] issues at most three requests
    per attempt, [3 * max_retries] in all, and at least one when the budget
    is positive; it sleeps at most [max_retries] times, [retry_delay] each
    time. *)
Theorem lookup_budget name max_retries retry_delay s :
  0 ≤ retry_delay →
  ∃ t k, (search_by_name_with_retries g up name max_retries retry_delay s).2 = s ++ t ∧
         (length (requests_of t) ≤ 3 * Z.to_nat max_retries)%nat ∧
         (0 < max_retries → (1 ≤ length (requests_of t))%nat) ∧
         (k ≤ Z.to_nat max_retries)%nat ∧ sleeps_of t = replicate k retry_delay.
Proof. apply search_by_name_budget. Qed.
End Budgets.

Section Edges.
Context (g : Globals) (up : Upstream).

(** X10.  With a budget of zero or less the loop body never runs: nothing is asked
    of PubChem, nothing sleeps, and the answer is the exhausted-retries
    failure naming that budget. *)
Theorem no_budget_no_request name max_retries retry_delay s :
  max_retries ≤ 0 →
  search_by_name_with_retries g up name max_retries retry_delay s =
    (inr (transient_failure name max_retries),
     s ++ [EvLog ERROR ("Failed to search for '" +:+ name +:+ "' after " +:+ pretty max_retries +:+ " attempts.")]).
Proof.
  intros Hbudget. unfold search_by_name_with_retries.
  replace (Z.to_nat max_retries) with 0%nat by lia. apply retry_loop_exhausted.
Qed.

Lemma retry_loop_all_busy name max_retries retry_delay left attempt s :
  0 ≤ retry_delay →
  (∀ attempt s0, ∃ e s1,
      try_body g up name attempt max_retries s0 = (inl e, s1) ∧ transient e = true) →
  ∃ t, retry_loop g up name max_retries retry_delay left attempt s =
         (inr (transient_failure name max_retries), s ++ t) ∧
       attempts_in t = left ∧
       sleeps_of t = replicate left retry_delay.
Proof.
  intros Hdelay Hbusy. revert attempt s. induction left as [|left IH]; intros attempt s.
  - rewrite retry_loop_exhausted. by eexists.
  - destruct (Hbusy attempt s) as (e & s1 & Hbody & He).
    destruct (try_body_attempts g up name attempt max_retries s) as (t1 & Ht1 & Hn1).
    destruct (try_body_trace g up name attempt max_retries s) as (t1' & Ht1' & _ & Hsl).
    rewrite Ht1 in Ht1'. apply app_inv_head in Ht1'. subst t1'.
    rewrite Hbody in Ht1. simpl in Ht1. subst s1.
    rewrite (retry_loop_step _ _ _ _ _ _ _ _ _ _
               (iteration_busy _ _ _ _ _ _ _ _ _ Hdelay Hbody He)).
    destruct (IH (attempt + 1) (after_busy name retry_delay (s ++ t1))) as (t & -> & Hn & Hs).
    unfold after_busy. eexists. rewrite <- !app_assoc. split; [reflexivity|].
    rewrite !attempts_in_app, !sleeps_of_app, Hn1, Hn, Hsl, Hs. simpl. by split.
Qed.

(** X11.  Against an upstream that answers every attempt with a transient error,
    the lookup makes exactly [max_retries] attempts, sleeps [retry_delay]
    after each of them, the last one included, and returns the
    exhausted-retries failure. *)
Theorem all_busy_exhausts name max_retries retry_delay s :
  0 ≤ retry_delay →
  (∀ attempt s0, ∃ e s1,
      try_body g up name attempt max_retries s0 = (inl e, s1) ∧ transient e = true) →
  ∃ t, search_by_name_with_retries g up name max_retries retry_delay s =
         (inr (transient_failure name max_retries), s ++ t) ∧
       attempts_in t = Z.to_nat max_retries ∧
       sleeps_of t = replicate (Z.to_nat max_retries) retry_delay.
Proof. intros Hdelay Hbusy. by apply retry_loop_all_busy. Qed.

(** X12.  An exception that is not retried ends the lookup with the failure of its
    kind: a [PubChemHTTPError] gives the HTTP-error text and its own message
    only goes to the log; any other exception gives the general-error text,
    which carries the message. *)
Theorem failure_kind_by_cause name max_retries retry_delay s e s1 :
  0 < max_retries →
  try_body g up name 0 max_retries s = (inl e, s1) →
  transient e = false →
  ∃ text, search_by_name_with_retries g up name max_retries retry_delay s =
            (inr (failure_for name e), s1 ++ [EvLog ERROR text]) ∧
          (∀ msg, failure_for name (PubChemHTTPError msg) !! "error"
                    = Some (VStr ("Compound '" +:+ name +:+ "' not found in PubChem (HTTP Error)."))) ∧
          (∀ msg, failure_for name (OtherException msg) !! "error"
                    = Some (VStr ("General error for '" +:+ name +:+ "': " +:+ msg))).
Proof.
  intros Hbudget Hbody He. unfold search_by_name_with_retries.
  destruct (Z.to_nat max_retries) as [|left] eqn:Hleft; [lia|].
  assert (Hiter : ∃ text, iteration g up name 0 max_retries retry_delay s =
                    (inr (Return (failure_for name e)), s1 ++ [EvLog ERROR text])).
  { unfold iteration, try_except. rewrite (bind_inl _ _ _ _ _ Hbody).
    destruct e as [msg|msg|msg]; simpl in He; unfold handler; rewrite ?He; py_run;
      by eexists. }
  destruct Hiter as (text & Hiter). exists text.
  rewrite (retry_loop_step _ _ _ _ _ _ _ _ _ _ Hiter).
  split; [done|]. split; intros msg; apply failure_error.
Qed.

(** X13.  [time.sleep] rejects a negative length, and it is called from the
    [except] clause: with a negative [retry_delay] the first transient error
    makes the lookup raise instead of returning an outcome. *)
Theorem negative_delay_escapes name max_retries retry_delay s e s1 :
  retry_delay < 0 → 0 < max_retries →
  try_body g up name 0 max_retries s = (inl e, s1) →
  transient e = true →
  ∃ text, search_by_name_with_retries g up name max_retries retry_delay s =
            (inl (OtherException "sleep length must be non-negative"),
             s1 ++ [EvLog WARNING text]).
Proof.
  intros Hdelay Hbudget Hbody He. unfold search_by_name_with_retries.
  destruct (Z.to_nat max_retries) as [|left] eqn:Hleft; [lia|].
  assert (Hiter : ∃ text, iteration g up name 0 max_retries retry_delay s =
                    (inl (OtherException "sleep length must be non-negative"),
                     s1 ++ [EvLog WARNING text])).
  { unfold iteration, try_except. rewrite (bind_inl _ _ _ _ _ Hbody).
    destruct e as [msg|msg|msg]; try done. simpl in He. unfold handler, time_sleep.
    rewrite He. destruct (Z.ltb_spec retry_delay 0) as [_|?]; [|lia].
    py_run. by eexists. }
  destruct Hiter as (text & Hiter). exists text.
  cbn [retry_loop]. by rewrite (bind_inl _ _ _ _ _ Hiter).
Qed.
End Edges.

(** ** Budgets and log of a batch *)

Section BatchBudget.
Context (g : Globals) (up : Upstream).

Lemma batch_loop_budget names all_results s :
  ∃ t k, (batch_loop g up names all_results s).2 = s ++ t ∧
         (length names ≤ length (requests_of t) ≤ 9 * length names)%nat ∧
         (k ≤ 3 * length names)%nat ∧ sleeps_of t = replicate k 5.
Proof.
  revert all_results s. induction names as [|name names IH]; intros all_results s.
  - exists [], 0%nat. simpl. rewrite app_nil_r. repeat split; lia.
  - destruct (search_by_name_returns g up name 3 5 s ltac:(lia)) as (d & s1 & Hd & _).
    destruct (search_by_name_budget g up name 3 5 s ltac:(lia)) as (t1 & k1 & Ht1 & Hreq & Hone & Hk & Hsl).
    rewrite Hd in Ht1. simpl in Ht1. subst s1.
    cbn [batch_loop]. rewrite (bind_inr _ _ _ _ _ Hd). py_run.
    destruct (IH (all_results ++ [d])
                 (((s ++ t1) ++ [EvLog INFO "Pausing for 2.0s."]) ++ [EvPause PAUSE_BETWEEN_REQUESTS]))
      as (t2 & k2 & -> & Hreq2 & Hk2 & Hsl2).
    exists (t1 ++ [EvLog INFO "Pausing for 2.0s."; EvPause PAUSE_BETWEEN_REQUESTS] ++ t2), (k1 + k2)%nat.
    split; [by rewrite <- !app_assoc|].
    rewrite !requests_of_app, !sleeps_of_app, !length_app, Hsl, Hsl2, replicate_add.
    specialize (Hone ltac:(lia)). change (Z.to_nat 3) with 3%nat in *. simpl.
    repeat split; try done; lia.
Qed.

(** X17.  A batch asks PubChem at least once and at most nine times per name
    (three attempts of at most three requests), and its retry sleeps are at
    most three per name, five seconds each.  An empty batch asks nothing. *)
Theorem batch_budget names s :
  ∃ t k, (search_compounds_by_name g up names s).2 = s ++ t ∧
         (length names ≤ length (requests_of t) ≤ 9 * length names)%nat ∧
         (k ≤ 3 * length names)%nat ∧ sleeps_of t = replicate k 5.
Proof.
  unfold search_compounds_by_name. rewrite (bind_inr _ _ _ _ _ (log_run _ _ _)).
  set (s0 := s ++ [_]).
  destruct (batch_loop_outcomes g up names [] s0) as (results & s' & Hrun & _).
  destruct (batch_loop_budget names [] s0) as (t & k & Ht & Hreq & Hk & Hsl).
  rewrite Hrun in Ht. simpl in Ht. subst s'.
  rewrite (bind_inr _ _ _ _ _ Hrun). unfold log_results_to_file. py_run.
  eexists _, k. subst s0. rewrite <- !app_assoc. split; [reflexivity|].
  change (?e :: ?t ++ ?u) with ([e] ++ t ++ u).
  rewrite !requests_of_app, !sleeps_of_app. simpl. rewrite !app_nil_r. by split.
Qed.

Lemma batch_loop_logs_no_data names all_results :
  emits (λ e, ∀ lvl data, e ≠ EvLogData lvl data) (batch_loop g up names all_results).
Proof.
  revert all_results. induction names as [|name names IH]; intros all_results; simpl.
  - apply emits_ret.
  - apply emits_bind; [|intros d].
    { eapply emits_weaken; [|apply search_by_name_emits]. intros e He lvl data ->. exact He. }
    apply emits_bind; [by apply emits_log|intros _].
    apply emits_bind; [by apply emits_emit|intros _]. apply IH.
Qed.

(** X18.  What the batch writes to the debug log is what it returns: the trace
    ends with the header line, the returned list itself, and the footer, and
    nothing else of the batch is a logged payload. *)
Theorem batch_logs_what_it_returns names s :
  ∃ results t,
    search_compounds_by_name g up names s =
      (inr results,
       s ++ t ++ [EvLog INFO "--- DEBUG: DATA BEING SENT TO LLM ---";
                  EvLogData INFO results;
                  EvLog INFO "--- END OF DATA ---"]) ∧
    Forall (λ e, ∀ lvl data, e ≠ EvLogData lvl data) t.
Proof.
  unfold search_compounds_by_name. rewrite (bind_inr _ _ _ _ _ (log_run _ _ _)).
  set (line := EvLog INFO _).
  destruct (batch_loop_outcomes g up names [] (s ++ [line])) as (results & s' & Hrun & _).
  destruct (batch_loop_logs_no_data names [] (s ++ [line])) as (t & Ht & HP).
  rewrite Hrun in Ht. simpl in Ht. subst s'.
  rewrite (bind_inr _ _ _ _ _ Hrun). unfold log_results_to_file. py_run.
  exists results, (line :: t). split; [by rewrite <- !app_assoc|].
  constructor; [done|exact HP].
Qed.
End BatchBudget.

(** ** The error texts *)

Lemma failure_inj message1 message2 name :
  failure message1 name = failure message2 name → message1 = message2.
Proof.
  intros H. apply (f_equal (lookup "error")) in H. rewrite !failure_error in H. congruence.
Qed.

(** X15.  The five failures of a lookup can be told apart by their [error] text
    alone, whatever the name, the identifier, the exception message and the
    retry budget are. *)
Theorem failures_pairwise_distinct name cid msg max_retries :
  NoDup [not_found name; http_error name; general_error name msg;
         fetch_error name cid; transient_failure name max_retries].
Proof.
  unfold not_found, http_error, general_error, fetch_error, transient_failure.
  repeat (apply NoDup_cons; split); [..|apply NoDup_nil_2];
    rewrite ?not_elem_of_cons; repeat split; try apply not_elem_of_nil;
    intros H%failure_inj; simpl in H; try discriminate H.
  injection H as H. apply (inj (String.app name)) in H. discriminate H.
Qed.

(** ** The substring test of the retry clause *)

Lemma substring_prefix (s : string) m : ∃ b, s = substring 0 m s +:+ b.
Proof.
  revert m. induction s as [|c s IH]; intros [|m]; simpl; try by eexists.
  destruct (IH m) as [b Hb]. exists b.
  change (String c s = String c (substring 0 m s +:+ b)). by f_equal.
Qed.

Lemma substring_infix (s : string) n m : ∃ a b, s = a +:+ substring n m s +:+ b.
Proof.
  revert n. induction s as [|c s IH]; intros [|n].
  - exists "", "". by destruct m.
  - by exists "", "".
  - destruct (substring_prefix (String c s) m) as [b Hb]. by exists "", b.
  - destruct (IH n) as (a & b & Hab). exists (String c a), b.
    change (String c s = String c (a +:+ substring n m s +:+ b)). by f_equal.
Qed.

Lemma substring_app_mid (a p b : string) :
  substring (String.length a) (String.length p) (a +:+ p +:+ b) = p.
Proof.
  induction a as [|c a IH]; [|exact IH].
  change ("" +:+ p +:+ b) with (p +:+ b).
  induction p as [|c p IH]; [by destruct b|].
  change (String c (substring 0 (String.length p) (p +:+ b)) = String c p). by f_equal.
Qed.

(** [py_in] is Python's substring test. *)
Lemma py_in_spec (pat s : string) :
  pat ≠ "" → py_in pat s = true ↔ ∃ a b, s = a +:+ pat +:+ b.
Proof.
  intros Hpat. unfold py_in. split.
  - destruct (index 0 pat s) as [m|] eqn:Hindex; [intros _|done].
    apply index_correct1 in Hindex.
    destruct (substring_infix s m (String.length pat)) as (a & b & Hab).
    exists a, b. by rewrite Hindex in Hab.
  - intros (a & b & ->). destruct (index 0 pat _) as [m|] eqn:Hindex; [done|].
    destruct (index_correct3 0 (String.length a) pat _ Hindex Hpat ltac:(lia)).
    apply substring_app_mid.
Qed.

Lemma transient_iff_text e :
  transient e = true ↔
  ∃ a b, e = PubChemHTTPError (a +:+ "Server Busy" +:+ b) ∨
         e = PubChemHTTPError (a +:+ "503" +:+ b).
Proof.
  split.
  - destruct e as [msg|msg|msg]; try done. simpl. unfold server_busy.
    intros [H|H]%orb_true_iff; apply py_in_spec in H as (a & b & ->); try done;
      exists a, b; [by left|by right].
  - intros (a & b & [-> | ->]); simpl; unfold server_busy; apply orb_true_iff;
      [left|right]; apply py_in_spec; try done; by exists a, b.
Qed.

(** X14.  When an attempt raises, the loop goes on to another pass (after the
    warning and the sleep) exactly when the exception is a
    [PubChemHTTPError] whose text has [Server Busy] or [503] somewhere in
    it, be it a status code or part of any other number or word; in every
    other case this pass is the last and its failure is what the lookup
    returns. *)
Theorem retried_iff_text_mentions_busy g up name max_retries retry_delay left attempt s e s1 :
  0 ≤ retry_delay →
  try_body g up name attempt max_retries s = (inl e, s1) →
  ((iteration g up name attempt max_retries retry_delay s
      = (inr Continue, after_busy name retry_delay s1) ∧
    retry_loop g up name max_retries retry_delay (S left) attempt s
      = retry_loop g up name max_retries retry_delay left (attempt + 1)
                   (after_busy name retry_delay s1))
   ↔ ∃ a b, e = PubChemHTTPError (a +:+ "Server Busy" +:+ b) ∨
            e = PubChemHTTPError (a +:+ "503" +:+ b)) ∧
  ((∃ message text,
      retry_loop g up name max_retries retry_delay (S left) attempt s
        = (inr (failure message name), s1 ++ [EvLog ERROR text]))
   ↔ ¬ ∃ a b, e = PubChemHTTPError (a +:+ "Server Busy" +:+ b) ∨
              e = PubChemHTTPError (a +:+ "503" +:+ b)).
Proof.
  intros Hdelay Hbody. rewrite <- transient_iff_text.
  destruct (transient e) eqn:He.
  - pose proof (iteration_busy g up _ _ _ _ _ _ _ Hdelay Hbody He) as Hiter.
    assert (Hloop : retry_loop g up name max_retries retry_delay (S left) attempt s
                    = retry_loop g up name max_retries retry_delay left (attempt + 1)
                                 (after_busy name retry_delay s1))
      by (by rewrite (retry_loop_step _ _ _ _ _ _ _ _ _ _ Hiter)).
    split; [by split|]. split; [|by intros []].
    intros (message & text & Hrun) _. rewrite Hloop in Hrun.
    destruct (retry_loop_attempts g up name max_retries retry_delay left (attempt + 1)
                (after_busy name retry_delay s1) Hdelay) as (t & Ht & _).
    rewrite Hrun in Ht. simpl in Ht. unfold after_busy in Ht.
    rewrite <- app_assoc in Ht. apply app_inv_head in Ht.
    apply (f_equal length) in Ht. rewrite length_app in Ht. simpl in Ht. lia.
  - destruct (iteration_failed g up _ _ _ retry_delay _ _ _ Hbody He) as (message & text & Hiter).
    split.
    + split; [|done]. intros [Hcont _]. rewrite Hiter in Hcont. discriminate.
    + split; [done|]. intros _. exists message, text.
      by rewrite (retry_loop_step _ _ _ _ _ _ _ _ _ _ Hiter).
Qed.

(** ** compound_to_dict as a projection *)

Lemma projected_lookup (props : dict) key :
  (list_to_map ((λ key, (key, default VNone (props !! key))) <$> keys_to_ensure) : dict) !! key =
  if decide (key ∈ keys_to_ensure) then Some (default VNone (props !! key)) else None.
Proof.
  unfold keys_to_ensure. cbn [fmap list_fmap list_to_map foldr curry fst snd].
  case_decide as Hkey.
  - repeat (apply elem_of_cons in Hkey as [->|Hkey]); [..|by apply elem_of_nil in Hkey];
      by simplify_map_eq.
  - rewrite !not_elem_of_cons in Hkey. destruct Hkey as (?&?&?&?&?&?&?&_).
    by simplify_map_eq.
Qed.

Lemma projected_dom (props : dict) :
  dom (list_to_map ((λ key, (key, default VNone (props !! key))) <$> keys_to_ensure) : dict)
    = list_to_set keys_to_ensure.
Proof.
  unfold keys_to_ensure. cbn [fmap list_fmap list_to_map foldr curry fst snd].
  rewrite !dom_insert_L. cbn. set_solver.
Qed.

(** X7.  [compound_to_dict] never raises and asks nothing of PubChem.  It gives
    [None] exactly for a missing compound and for one whose [to_dict()]
    raises; otherwise it gives the projection of the upstream properties on
    the seven keys: each of them present, with the upstream value or [None],
    and every other upstream property dropped. *)
Theorem compound_to_dict_projects compound s :
  ∃ o t,
    compound_to_dict compound s = (inr o, s ++ t) ∧
    requests_of t = [] ∧
    (o = None ↔ compound = None ∨ ∃ c e, compound = Some c ∧ to_dict c = inl e) ∧
    ∀ d, o = Some d →
      ∃ c props, compound = Some c ∧ to_dict c = inr props ∧
        dom d = list_to_set keys_to_ensure ∧
        ∀ key, d !! key = if decide (key ∈ keys_to_ensure)
                          then Some (default VNone (props !! key)) else None.
Proof.
  unfold compound_to_dict. destruct compound as [c|]; [destruct (to_dict c) as [e|props] eqn:Hc|];
    unfold mbind, Py_bind, mret, Py_ret, log, emit.
  - eexists None, _. split; [reflexivity|]. split; [done|].
    split; [split; [intros _; right; by exists c, e|done]|done].
  - eexists (Some _), []. rewrite app_nil_r. split; [reflexivity|]. split; [done|].
    split; [split; [done|intros [?|(c' & e & [= <-] & He)]; congruence]|].
    intros d [= <-]. exists c, props. split; [done|]. split; [done|].
    split; [apply projected_dom|apply projected_lookup].
  - exists None, []. rewrite app_nil_r. split; [done|]. split; [done|].
    split; [split; [by left|done]|done].
Qed.

(** ** What a lookup leaves alone *)

(** X16.  A lookup only appends to the trace, and only log lines, PubChem requests
    issued with the module's [proxies], and [time.sleep] calls: it never
    contacts the Tor check, never writes config.ini, never suspends on
    [asyncio.sleep] and never logs a payload. *)
Theorem lookup_side_effects g up name max_retries retry_delay s :
  ∃ t, (search_by_name_with_retries g up name max_retries retry_delay s).2 = s ++ t ∧
       Forall (lookup_event (proxies g)) t ∧
       total_pacing t = 0%Q.
Proof.
  destruct (search_by_name_emits g up name max_retries retry_delay s) as (t & Ht & HP).
  exists t. split; [done|]. split; [done|by eapply lookup_no_pacing].
Qed.

(** ** The further theorems at concrete inputs *)

Lemma startup_proxies_well_formed_witness :
  ∃ ty host port,
    ty ∈ ["socks5h"; "socks5"; "http"; "https"] ∧
    configured_proxies lower_ascii Stub.tor_ini !! "http" = Some (proxy_url ty host port) ∧
    configured_proxies lower_ascii Stub.tor_ini !! "https" = Some (proxy_url ty host port) ∧
    dom (configured_proxies lower_ascii Stub.tor_ini) = {["http"; "https"]} ∧
    CONNECTION_TYPE (proxy_globals "socks5h" "127.0.0.1" 9050)
      = "Proxy " +:+ upper ty +:+ " (" +:+ proxy_url ty host port +:+ ")".
Proof.
  apply (startup_proxies_well_formed lower_ascii Stub.proxy_down (Some Stub.tor_ini) []
           (proxy_globals "socks5h" "127.0.0.1" 9050) Stub.tor_down_trace
           (configured_proxies lower_ascii Stub.tor_ini)); vm_compute; reflexivity.
Defined.

Lemma startup_globals_consistent_witness :
  USE_PROXY (proxy_globals "socks5h" "127.0.0.1" 9050) = use_proxy_setting (Some Stub.tor_ini) ∧
  (USE_PROXY (proxy_globals "socks5h" "127.0.0.1" 9050) = true
     ↔ is_Some (proxies (proxy_globals "socks5h" "127.0.0.1" 9050))) ∧
  (USE_PROXY (proxy_globals "socks5h" "127.0.0.1" 9050) = false
     ↔ CONNECTION_TYPE (proxy_globals "socks5h" "127.0.0.1" 9050) = "Direct").
Proof.
  apply (startup_globals_consistent lower_ascii Stub.proxy_down (Some Stub.tor_ini) []
           (proxy_globals "socks5h" "127.0.0.1" 9050) Stub.tor_down_trace).
  vm_compute; reflexivity.
Defined.

Lemma startup_checks_once_through_proxy_witness :
  ∃ t, (startup lower_ascii Stub.proxy_down (Some Stub.tor_ini) []).2 = [] ++ t ∧
       requests_of t = [TorCheck (Some (make_proxies "socks5h" "127.0.0.1" 9050))] ∧
       List.filter is_error_line t = [].
Proof.
  destruct (startup_checks_once_through_proxy lower_ascii Stub.proxy_down Stub.tor_ini [] eq_refl)
    as (t & Ht & Hvalid & _).
  exists t. split; [exact Ht|]. apply Hvalid.
  apply (bool_decide_unpack _). vm_compute. exact I.
Defined.

Lemma check_crash_aborts_startup_witness :
  ∃ t, startup lower_ascii Stub.check_crashes (Some Stub.tor_ini) []
         = (inl (OtherException "maximum recursion depth exceeded"), [] ++ t) ∧
       requests_of t = [TorCheck (Some (configured_proxies lower_ascii Stub.tor_ini))] ∧
       List.filter is_critical_line t = [].
Proof.
  apply (check_crash_aborts_startup lower_ascii Stub.check_crashes Stub.tor_ini []
           (OtherException "maximum recursion depth exceeded")).
  - reflexivity.
  - reflexivity.
  - intros msg. discriminate.
Defined.

Lemma check_answer_never_fatal_witness :
  ∃ g t msg,
    startup lower_ascii Stub.plain (Some Stub.tor_ini) [] = (inr g, [] ++ t) ∧
    last t = Some (EvLog INFO msg) ∧
    proxies g = Some (configured_proxies lower_ascii Stub.tor_ini) ∧
    List.filter is_critical_line t = [].
Proof.
  apply (check_answer_never_fatal lower_ascii Stub.plain Stub.tor_ini []
           "Congratulations. This browser is configured to use Tor.").
  - reflexivity.
  - reflexivity.
Defined.

Lemma lookup_budget_witness :
  ∃ t k, (search_by_name_with_retries Stub.direct Stub.plain "Aspirin" 3 5 []).2 = [] ++ t ∧
         (length (requests_of t) ≤ 3 * Z.to_nat 3)%nat ∧
         (0 < 3 → (1 ≤ length (requests_of t))%nat) ∧
         (k ≤ Z.to_nat 3)%nat ∧ sleeps_of t = replicate k 5.
Proof. apply (lookup_budget Stub.direct Stub.plain "Aspirin" 3 5 []). lia. Defined.

Lemma no_budget_no_request_witness :
  search_by_name_with_retries Stub.direct Stub.plain "Aspirin" 0 5 [] =
    (inr (transient_failure "Aspirin" 0),
     [] ++ [EvLog ERROR ("Failed to search for '" +:+ "Aspirin" +:+ "' after " +:+ pretty 0 +:+ " attempts.")]).
Proof. apply (no_budget_no_request Stub.direct Stub.plain "Aspirin" 0 5 []). lia. Defined.

Lemma all_busy_exhausts_witness :
  ∃ t, search_by_name_with_retries Stub.direct Stub.always_busy "Aspirin" 3 5 [] =
         (inr (transient_failure "Aspirin" 3), [] ++ t) ∧
       attempts_in t = Z.to_nat 3 ∧
       sleeps_of t = replicate (Z.to_nat 3) 5.
Proof.
  apply (all_busy_exhausts Stub.direct Stub.always_busy "Aspirin" 3 5 []).
  - lia.
  - intros attempt s0. eexists _, _. rewrite try_body_run. cbn zeta. rewrite resolve_run.
    split; reflexivity.
Defined.

Lemma failure_kind_by_cause_witness :
  ∃ text, search_by_name_with_retries Stub.direct Stub.bad_request "Aspirin" 3 5 [] =
            (inr (failure_for "Aspirin" (PubChemHTTPError "PUGREST.BadRequest")),
             Stub.bad_request_trace ++ [EvLog ERROR text]) ∧
          (∀ msg, failure_for "Aspirin" (PubChemHTTPError msg) !! "error"
                    = Some (VStr ("Compound '" +:+ "Aspirin" +:+ "' not found in PubChem (HTTP Error)."))) ∧
          (∀ msg, failure_for "Aspirin" (OtherException msg) !! "error"
                    = Some (VStr ("General error for '" +:+ "Aspirin" +:+ "': " +:+ msg))).
Proof.
  apply (failure_kind_by_cause Stub.direct Stub.bad_request "Aspirin" 3 5 []
           (PubChemHTTPError "PUGREST.BadRequest") Stub.bad_request_trace).
  - lia.
  - vm_compute; reflexivity.
  - reflexivity.
Defined.

Lemma negative_delay_escapes_witness :
  ∃ text, search_by_name_with_retries Stub.direct (Stub.busy_primary 2) "Aspirin" 3 (-1) [] =
            (inl (OtherException "sleep length must be non-negative"),
             Stub.busy_trace1 ++ [EvLog WARNING text]).
Proof.
  apply (negative_delay_escapes Stub.direct (Stub.busy_primary 2) "Aspirin" 3 (-1) []
           Stub.busy Stub.busy_trace1).
  - lia.
  - lia.
  - vm_compute; reflexivity.
  - reflexivity.
Defined.

Lemma retried_iff_text_mentions_busy_witness :
  iteration Stub.direct (Stub.busy_primary 2) "Aspirin" 0 3 5 []
    = (inr Continue, after_busy "Aspirin" 5 Stub.busy_trace1) ∧
  retry_loop Stub.direct (Stub.busy_primary 2) "Aspirin" 3 5 3 0 []
    = retry_loop Stub.direct (Stub.busy_primary 2) "Aspirin" 3 5 2 1
                 (after_busy "Aspirin" 5 Stub.busy_trace1).
Proof.
  apply (proj2 (proj1 (retried_iff_text_mentions_busy Stub.direct (Stub.busy_primary 2)
                         "Aspirin" 3 5 2 0 [] Stub.busy Stub.busy_trace1
                         ltac:(lia) ltac:(vm_compute; reflexivity)))).
  exists "PUGREST.ServerBusy: ", " Server Busy". by right.
Defined.
